(** * aioshelly: the websocket RPC engine ([aioshelly/wsrpc.py])

    A shallow embedding of [RouteData], [RPCCall], [hex_hash] and [WsRPC],
    and the properties of call correlation, frame classification, frame
    shaping, teardown and the digest handshake. *)

From Stdlib Require Import ZArith String Ascii List Lia DecimalString.
From stdpp Require Import gmap list sorting.
Import ListNotations.
Local Open Scope Z_scope.

(* ===================================================================== *)
(** ** Python values *)
(* ===================================================================== *)

(** A Python [str] is the list of its Unicode code points; [lit] gives the
    [str] denoted by an ASCII literal of the source. *)
Definition lit (s : string) : list Z :=
  map (fun a => Z.of_N (N_of_ascii a)) (list_ascii_of_string s).

(** Lookup in a [dict] kept as its bindings in insertion order. *)
Fixpoint dict_get {A} (d : list (list Z * A)) (k : list Z) : option A :=
  match d with
  | [] => None
  | (k', v) :: d' => if decide (k' = k) then Some v else dict_get d' k
  end.

(** [k in d] *)
Definition dict_in {A} (d : list (list Z * A)) (k : list Z) : bool :=
  match dict_get d k with Some _ => true | None => false end.

(** [d[k] = v]: an existing key keeps its place, a new one goes last. *)
Fixpoint dict_set {A} (d : list (list Z * A)) (k : list Z) (v : A)
  : list (list Z * A) :=
  match d with
  | [] => [(k, v)]
  | (k', v') :: d' =>
      if decide (k' = k) then (k', v) :: d' else (k', v') :: dict_set d' k v
  end.

(** [del d[k]], for a key that is in [d]. *)
Definition dict_del {A} (d : list (list Z * A)) (k : list Z)
  : list (list Z * A) :=
  filter (fun kv => kv.1 ≠ k) d.

#[warnings="-register-all"]
(** What [json.loads] produces and what the engine passes around: [None],
    [bool], [int], [str], [list] and [dict] with [str] keys.  A [float] is
    not represented. *)
Inductive value :=
| PyNone
| PyBool (b : bool)
| PyInt (z : Z)
| PyStr (s : list Z)
| PyList (l : list value)
| PyDict (d : list (list Z * value)).

(** [bool(v)] *)
Definition truthy (v : value) : bool :=
  match v with
  | PyNone => false
  | PyBool b => b
  | PyInt z => negb (z =? 0)
  | PyStr s => match s with [] => false | _ => true end
  | PyList l => match l with [] => false | _ => true end
  | PyDict d => match d with [] => false | _ => true end
  end.

(** [a == b]: [bool] is a subclass of [int], sequences compare element by
    element, dicts compare as mappings. *)
Fixpoint py_eq (a b : value) {struct a} : bool :=
  match a, b with
  | PyNone, PyNone => true
  | PyBool x, PyBool y => Bool.eqb x y
  | PyBool x, PyInt y => Z.b2z x =? y
  | PyInt x, PyBool y => x =? Z.b2z y
  | PyInt x, PyInt y => x =? y
  | PyStr x, PyStr y => bool_decide (x = y)
  | PyList xs, PyList ys =>
      (fix go (xs ys : list value) : bool :=
         match xs, ys with
         | [], [] => true
         | x :: xs', y :: ys' => py_eq x y && go xs' ys'
         | _, _ => false
         end) xs ys
  | PyDict d, PyDict e =>
      (length d =? length e)%nat &&
      (fix go (d : list (list Z * value)) : bool :=
         match d with
         | [] => true
         | (k, v) :: d' =>
             match dict_get e k with
             | Some w => py_eq v w
             | None => false
             end && go d'
         end) d
  | _, _ => false
  end.

(** The exceptions that occur.  Modelled from the spec: the classes of
    [aioshelly/exceptions.py] ([ConnectionClosed], [ConnectionFailed],
    [InvalidMessage], [JSONRPCError], [RPCError]), which its error
    taxonomy lists as distinct kinds; none is taken to be a subclass of
    another or of a built-in such as [KeyError]. *)
Inductive exn :=
| RuntimeError (msg : string)
| TypeError
| AttributeError
| KeyError
| AssertionError
| InvalidStateError
| CancelledError
| UnicodeEncodeError
| JSONRPCError (code msg : value)
| RPCError (bad_response : value)
| ConnectionClosed
| ConnectionFailed
| InvalidMessage
| TransportError (tag : string).

Inductive result (A : Type) :=
| Ok (a : A)
| Raise (e : exn).
Arguments Ok {A} a.
Arguments Raise {A} e.

(* ===================================================================== *)
(** ** [hex_hash]: UTF-8, SHA-256, hexdigest *)
(* ===================================================================== *)

Module Utf8.

(** [str.encode("utf-8")] of one code point; a surrogate cannot be
    encoded. *)
Definition encode_char (c : Z) : option (list Z) :=
  if (c <? 0) then None
  else if c <? 128 then Some [c]
  else if c <? 2048 then
    Some [Z.lor 192 (Z.shiftr c 6); Z.lor 128 (Z.land c 63)]
  else if c <? 65536 then
    if (55296 <=? c) && (c <=? 57343) then None
    else Some [Z.lor 224 (Z.shiftr c 12);
               Z.lor 128 (Z.land (Z.shiftr c 6) 63);
               Z.lor 128 (Z.land c 63)]
  else if c <? 1114112 then
    Some [Z.lor 240 (Z.shiftr c 18);
          Z.lor 128 (Z.land (Z.shiftr c 12) 63);
          Z.lor 128 (Z.land (Z.shiftr c 6) 63);
          Z.lor 128 (Z.land c 63)]
  else None.

Fixpoint encode (s : list Z) : option (list Z) :=
  match s with
  | [] => Some []
  | c :: s' =>
      match encode_char c, encode s' with
      | Some b, Some bs => Some (b ++ bs)
      | _, _ => None
      end
  end.

End Utf8.

Module Sha256.

Definition w32 (x : Z) : Z := Z.land x 4294967295.
Definition add32 (x y : Z) : Z := w32 (x + y).
Definition rotr (n x : Z) : Z :=
  Z.lor (Z.shiftr x n) (w32 (Z.shiftl x (32 - n))).
Definition Ch (x y z : Z) : Z :=
  Z.lxor (Z.land x y) (Z.land (Z.lxor x 4294967295) z).
Definition Maj (x y z : Z) : Z :=
  Z.lxor (Z.lxor (Z.land x y) (Z.land x z)) (Z.land y z).
Definition bsig0 (x : Z) := Z.lxor (Z.lxor (rotr 2 x) (rotr 13 x)) (rotr 22 x).
Definition bsig1 (x : Z) := Z.lxor (Z.lxor (rotr 6 x) (rotr 11 x)) (rotr 25 x).
Definition ssig0 (x : Z) := Z.lxor (Z.lxor (rotr 7 x) (rotr 18 x)) (Z.shiftr x 3).
Definition ssig1 (x : Z) := Z.lxor (Z.lxor (rotr 17 x) (rotr 19 x)) (Z.shiftr x 10).

(** The round constants are the first 32 bits of the fractional parts of
    the cube roots of the first 64 primes, the initial hash value those of
    the square roots of the first 8. *)
Definition primes64 : list Z :=
  [2; 3; 5; 7; 11; 13; 17; 19; 23; 29; 31; 37; 41; 43; 47; 53;
   59; 61; 67; 71; 73; 79; 83; 89; 97; 101; 103; 107; 109; 113; 127; 131;
   137; 139; 149; 151; 157; 163; 167; 173; 179; 181; 191; 193; 197; 199;
   211; 223; 227; 229; 233; 239; 241; 251; 257; 263; 269; 271; 277; 281;
   283; 293; 307; 311].

(** Integer cube root by bisection on the bits of the root. *)
Fixpoint icbrt_bits (bits : nat) (n r : Z) : Z :=
  match bits with
  | O => r
  | S b =>
      let r' := r + 2 ^ Z.of_nat b in
      icbrt_bits b n (if r' * r' * r' <=? n then r' else r)
  end.

Definition K : list Z :=
  Eval vm_compute in
    map (fun p => w32 (icbrt_bits 40 (p * 2 ^ 96) 0)) primes64.

Definition H0 : list Z :=
  Eval vm_compute in
    map (fun p => w32 (Z.sqrt (p * 2 ^ 64))) (take 8 primes64).

(** Padding: a 1 bit, zeros up to 56 mod 64 bytes, the bit length on 8
    bytes, big-endian. *)
Definition be_bytes (n : nat) (x : Z) : list Z :=
  map (fun i => Z.land (Z.shiftr x (8 * Z.of_nat i)) 255) (rev (seq 0 n)).

Definition pad (msg : list Z) : list Z :=
  let len := Z.of_nat (length msg) in
  msg ++ [128] ++ repeat 0 (Z.to_nat ((55 - len) mod 64))
      ++ be_bytes 8 (8 * len).

Fixpoint words (bs : list Z) : list Z :=
  match bs with
  | a :: b :: c :: d :: bs' =>
      (Z.shiftl a 24 + Z.shiftl b 16 + Z.shiftl c 8 + d) :: words bs'
  | _ => []
  end.

(** The message schedule, kept newest first while it is extended. *)
Fixpoint extend (n : nat) (rev_w : list Z) : list Z :=
  match n with
  | O => rev_w
  | S n' =>
      let at_ i := nth i rev_w 0 in
      extend n'
        (add32 (add32 (ssig1 (at_ 1%nat)) (at_ 6%nat))
               (add32 (ssig0 (at_ 14%nat)) (at_ 15%nat)) :: rev_w)
  end.

Definition schedule (block : list Z) : list Z :=
  rev (extend 48 (rev (words block))).

Record regs := Regs { ra : Z; rb : Z; rc : Z; rd : Z;
                      re : Z; rf : Z; rg : Z; rh : Z }.

Definition round (s : regs) (kw : Z * Z) : regs :=
  let (a, b, c, d, e, f, g, h) := s in
  let t1 := add32 (add32 (add32 h (bsig1 e)) (add32 (Ch e f g) kw.1)) kw.2 in
  let t2 := add32 (bsig0 a) (Maj a b c) in
  Regs (add32 t1 t2) a b c (add32 d t1) e f g.

Definition compress (s : regs) (block : list Z) : regs :=
  let s' := fold_left round (combine K (schedule block)) s in
  Regs (add32 (ra s) (ra s')) (add32 (rb s) (rb s'))
       (add32 (rc s) (rc s')) (add32 (rd s) (rd s'))
       (add32 (re s) (re s')) (add32 (rf s) (rf s'))
       (add32 (rg s) (rg s')) (add32 (rh s) (rh s')).

Fixpoint blocks (n : nat) (bs : list Z) (s : regs) : regs :=
  match n with
  | O => s
  | S n' => blocks n' (drop 64 bs) (compress s (take 64 bs))
  end.

Definition init : regs :=
  Regs (nth 0 H0 0) (nth 1 H0 0) (nth 2 H0 0) (nth 3 H0 0)
       (nth 4 H0 0) (nth 5 H0 0) (nth 6 H0 0) (nth 7 H0 0).

Definition digest_words (msg : list Z) : list Z :=
  let p := pad msg in
  let (a, b, c, d, e, f, g, h) := blocks (length p / 64) p init in
  [a; b; c; d; e; f; g; h].

(** [hexdigest()]: lowercase hexadecimal, two digits a byte. *)
Definition hex_digit (n : Z) : Z :=
  if n <? 10 then 48 + n else 87 + n.

Definition hex_word (x : Z) : list Z :=
  map (fun i => hex_digit (Z.land (Z.shiftr x (4 * i)) 15))
      [7; 6; 5; 4; 3; 2; 1; 0].

Definition hexdigest (msg : list Z) : list Z :=
  concat (map hex_word (digest_words msg)).

End Sha256.

(** [hex_hash(message)] *)
Definition hex_hash (message : list Z) : result (list Z) :=
  match Utf8.encode message with
  | Some bytes => Ok (Sha256.hexdigest bytes)
  | None => Raise UnicodeEncodeError
  end.

Example sha256_empty :
  hex_hash [] =
  Ok (lit "e3b0c44298fc1c149afbf4c8996fb92427ae41e4649b934ca495991b7852b855").
Proof. vm_compute. reflexivity. Qed.

(** ["h\u00e9llo \u20ac \U0001f600"]: two, three and four byte
    encodings. *)
Example sha256_utf8 :
  hex_hash [104; 233; 108; 108; 111; 32; 8364; 32; 128512] =
  Ok (lit "83643b4928cf4914ee6352fed94ef1d9cacb5a843c45544627c6593db3548d74").
Proof. vm_compute. reflexivity. Qed.

(** A lone surrogate, which [json.loads] accepts, cannot be encoded. *)
Example sha256_surrogate : hex_hash [97; 55296] = Raise UnicodeEncodeError.
Proof. reflexivity. Qed.

Example sha256_abc :
  hex_hash (lit "abc") =
  Ok (lit "ba7816bf8f01cfea414140de5dae2223b00361a396177a9cb410ff61f20015ad").
Proof. vm_compute. reflexivity. Qed.

(* ===================================================================== *)
(** ** Objects and state *)
(* ===================================================================== *)

(** [asyncio.Future]: pending, cancelled, or finished with a result.  The
    result set by the engine is always a frame, a [dict]. *)
Inductive future :=
| Pending
| Cancelled
| Finished (frame : list (list Z * value)).

(** [RouteData]; [src] is always the [str] built in [WsRPC.__init__]. *)
Record RouteData := mkRoute {
  route_src : list Z;
  route_dst : option value;
}.

(** [RPCCall].  [params] and [resolve] are references: the caller's [dict]
    object and the call's future live in the store. *)
Record RPCCall := mkCall {
  call_id : Z;
  method : list Z;
  params : option nat;
  call_src : list Z;
  call_dst : option value;
  resolve : nat;
  auth : value;
}.

(** The websocket as the engine sees it: the [closed] flag, and what its
    [send_json] does (the transport is a collaborator). *)
Record ClientWebSocketResponse := mkClient {
  closed : bool;
  send_error : option exn;
}.

(** What the engine does to the outside, in order. Debug and info
    logging is left out. *)
Inductive event :=
| LogWarning (fmt : string) (args : list value)
| SendJson (data : value)
| CloseClient
| CreateTask_handle_call (frame_id : value)
| OnNotification (args : list value)
| FutureSetResult (fut : nat) (frame : list (list Z * value))
| FutureCancel (fut : nat).

(** A [WsRPC] instance together with the objects it shares with its
    callers ([dicts], [futures]) and the trace of its effects. *)
Record WsRPC := mkWsRPC {
  _auth : value;
  _client : option ClientWebSocketResponse;
  _calls : gmap Z RPCCall;
  _call_id : Z;
  _route : RouteData;
  dicts : gmap nat (list (list Z * value));
  futures : gmap nat future;
  trace : list event;
}.

(** [WsRPC.__init__]; [tag] stands for [f"aios-{id(self)}"]. *)
Definition WsRPC_init (tag : list Z) : WsRPC :=
  mkWsRPC (PyDict []) None ∅ 0 (mkRoute tag None) ∅ ∅ [].

Definition with_auth (a : value) (s : WsRPC) : WsRPC :=
  mkWsRPC a (_client s) (_calls s) (_call_id s) (_route s)
          (dicts s) (futures s) (trace s).
Definition with_client (c : option ClientWebSocketResponse) (s : WsRPC) : WsRPC :=
  mkWsRPC (_auth s) c (_calls s) (_call_id s) (_route s)
          (dicts s) (futures s) (trace s).
Definition with_calls (m : gmap Z RPCCall) (s : WsRPC) : WsRPC :=
  mkWsRPC (_auth s) (_client s) m (_call_id s) (_route s)
          (dicts s) (futures s) (trace s).
Definition with_call_id (n : Z) (s : WsRPC) : WsRPC :=
  mkWsRPC (_auth s) (_client s) (_calls s) n (_route s)
          (dicts s) (futures s) (trace s).
Definition with_route (r : RouteData) (s : WsRPC) : WsRPC :=
  mkWsRPC (_auth s) (_client s) (_calls s) (_call_id s) r
          (dicts s) (futures s) (trace s).
Definition with_dicts (d : gmap nat (list (list Z * value))) (s : WsRPC) : WsRPC :=
  mkWsRPC (_auth s) (_client s) (_calls s) (_call_id s) (_route s)
          d (futures s) (trace s).
Definition with_futures (f : gmap nat future) (s : WsRPC) : WsRPC :=
  mkWsRPC (_auth s) (_client s) (_calls s) (_call_id s) (_route s)
          (dicts s) f (trace s).
Definition with_trace (t : list event) (s : WsRPC) : WsRPC :=
  mkWsRPC (_auth s) (_client s) (_calls s) (_call_id s) (_route s)
          (dicts s) (futures s) t.

(** *** The monad of methods: state, and an exception or a value.
    What a method changed before it raised stays changed. *)
Definition M (A : Type) : Type := WsRPC → result A * WsRPC.

#[global] Instance M_ret : MRet M := λ A a s, (Ok a, s).
#[global] Instance M_bind : MBind M := λ A B f m s,
  match m s with
  | (Ok a, s') => f a s'
  | (Raise e, s') => (Raise e, s')
  end.

Definition raise {A} (e : exn) : M A := λ s, (Raise e, s).
Definition gets {A} (f : WsRPC → A) : M A := λ s, (Ok (f s), s).
Definition modify (f : WsRPC → WsRPC) : M unit := λ s, (Ok tt, f s).
Definition emit (e : event) : M unit :=
  modify (λ s, with_trace (trace s ++ [e]) s).
Definition lift {A} (r : result A) : M A := λ s, (r, s).
Definition skip : M unit := mret tt.

(** *** Futures *)

(** [asyncio.Future()] *)
Definition Future_new : M nat :=
  fs ← gets futures;
  let l := fresh (dom fs) in
  modify (with_futures (<[l := Pending]> fs));;
  mret l.

(** [fut.cancelled()] *)
Definition Future_cancelled (l : nat) : M bool :=
  fs ← gets futures;
  mret (match fs !! l with Some Cancelled => true | _ => false end).

(** [fut.set_result(frame)]: only a pending future takes a result. *)
Definition Future_set_result (l : nat) (frame : list (list Z * value)) : M unit :=
  emit (FutureSetResult l frame);;
  fs ← gets futures;
  match fs !! l with
  | Some Pending => modify (with_futures (<[l := Finished frame]> fs))
  | _ => raise InvalidStateError
  end.

(** [fut.cancel()]: a future that is done stays as it is. *)
Definition Future_cancel (l : nat) : M unit :=
  emit (FutureCancel l);;
  fs ← gets futures;
  match fs !! l with
  | Some Pending => modify (with_futures (<[l := Cancelled]> fs))
  | _ => skip
  end.

(** *** Dict objects *)

(** A new [dict] object, as the literal [{}] makes one. *)
Definition dict_new (d : list (list Z * value)) : M nat :=
  ds ← gets dicts;
  let l := fresh (dom ds) in
  modify (with_dicts (<[l := d]> ds));;
  mret l.

(** The bindings of the [dict] object at [l]. *)
Definition dict_read (l : nat) : M (list (list Z * value)) :=
  ds ← gets dicts;
  mret (default [] (ds !! l)).

Definition dict_write (l : nat) (d : list (list Z * value)) : M unit :=
  ds ← gets dicts;
  modify (with_dicts (<[l := d]> ds)).

(* ===================================================================== *)
(** ** [RPCCall] *)
(* ===================================================================== *)

(** [RPCCall.__init__]: an ["auth"] entry of [params] is moved out of the
    caller's [dict] into the call. *)
Definition RPCCall_init (call_id : Z) (method : list Z) (params : option nat)
    (route : RouteData) : M RPCCall :=
  resolve ← Future_new;
  let self auth :=
    mkCall call_id method params (route_src route) (route_dst route)
           resolve auth in
  match params with
  | None => mret (self (PyDict []))
  | Some p =>
      d ← dict_read p;
      match d, dict_get d (lit "auth") with
      | _ :: _, Some a =>
          dict_write p (dict_del d (lit "auth"));;
          mret (self a)
      | _, _ => mret (self (PyDict []))
      end
  end.

(** [RPCCall.request_frame] *)
Definition request_frame (self : RPCCall) : M value :=
  let msg := [(lit "id", PyInt (call_id self));
              (lit "method", PyStr (method self));
              (lit "src", PyStr (call_src self))] in
  let msg := if truthy (auth self)
             then dict_set msg (lit "auth") (auth self) else msg in
  msg ← match params self with
        | Some p => d ← dict_read p; mret (dict_set msg (lit "params") (PyDict d))
        | None => mret msg
        end;
  let msg := match call_dst self with
             | Some d => dict_set msg (lit "dst") d
             | None => msg
             end in
  mret (PyDict msg).

(* ===================================================================== *)
(** ** [WsRPC] *)
(* ===================================================================== *)

(** Modelled from the spec: the constant [NOTIFY_WS_CLOSED] of
    [aioshelly/const.py], the distinguished connection-closed
    notification. *)
Definition NOTIFY_WS_CLOSED : value := PyStr (lit "connection-closed").

(** [WsRPC._next_id] *)
Definition _next_id : M Z :=
  n ← gets _call_id;
  modify (with_call_id (n + 1));;
  mret (n + 1).

(** [WsRPC.connected] *)
Definition connected (self : WsRPC) : bool :=
  match _client self with
  | Some c => negb (closed c)
  | None => false
  end.

(** [WsRPC.set_auth] *)
Definition set_auth (auth : value) : M unit := modify (with_auth auth).

(** [WsRPC._send_json] *)
Definition _send_json (data : value) : M unit :=
  c ← gets _client;
  match c with
  | None => raise AssertionError
  | Some c =>
      emit (SendJson data);;
      match send_error c with
      | Some e => raise e
      | None => skip
      end
  end.

(** [WsRPC._handle_call] *)
Definition _handle_call (frame_id : value) : M unit :=
  c ← gets _client;
  match c with
  | None => raise AssertionError
  | Some _ =>
      src ← gets (λ s, route_src (_route s));
      _send_json (PyDict [(lit "id", frame_id);
                          (lit "src", PyStr src);
                          (lit "error",
                           PyDict [(lit "code", PyInt 500);
                                   (lit "message", PyStr (lit "Not Implemented"))])])
  end.

(** [frame.get(k)] *)
Definition get (frame : list (list Z * value)) (k : list Z) : value :=
  default PyNone (dict_get frame k).

(** Hashing [frame_id] as a key of [self._calls]: an [int] key it may equal,
    no such key, or [TypeError] for an unhashable value. *)
Definition calls_key (frame_id : value) : result (option Z) :=
  match frame_id with
  | PyInt z => Ok (Some z)
  | PyBool b => Ok (Some (Z.b2z b))
  | PyNone | PyStr _ => Ok None
  | PyList _ | PyDict _ => Raise TypeError
  end.

(** The route bookkeeping at the head of [_handle_frame]. *)
Definition update_route (frame : list (list Z * value)) : M unit :=
  let peer_src := get frame (lit "src") in
  if truthy peer_src then
    route ← gets _route;
    match route_dst route with
    | Some dst =>
        if negb (py_eq peer_src dst)
        then emit (LogWarning "Remote src changed: %s -> %s" [dst; peer_src])
        else skip
    | None => skip
    end;;
    modify (with_route (mkRoute (route_src route) (Some peer_src)))
  else skip.

(** The dispatch that follows it. *)
Definition dispatch (frame : list (list Z * value)) : M unit :=
  let frame_id := get frame (lit "id") in
  let method := get frame (lit "method") in
  if truthy method then
    let params := get frame (lit "params") in
    if truthy frame_id
    then emit (CreateTask_handle_call frame_id)
    else emit (OnNotification [method; params])
  else if truthy frame_id then
    key ← lift (calls_key frame_id);
    calls ← gets _calls;
    match key ≫= (λ k, (λ c, (k, c)) <$> calls !! k) with
    | None =>
        emit (LogWarning "Response for an unknown request id: %s" [frame_id])
    | Some (k, call) =>
        modify (with_calls (delete k calls));;
        cancelled ← Future_cancelled (resolve call);
        if negb cancelled
        then Future_set_result (resolve call) frame
        else skip
    end
  else emit (LogWarning "Invalid frame: %s" [PyDict frame]).

(** [WsRPC._handle_frame]; only a [dict] has [get]. *)
Definition _handle_frame (frame : value) : M unit :=
  match frame with
  | PyDict d => update_route d;; dispatch d
  | _ => raise AttributeError
  end.

(** [WsRPC.call], the [if self._auth:] block: the [params] the call is
    built with. An absent or empty [params] is replaced by a new [dict];
    the credentials are put into [params] unless it has an ["auth"]. *)
Definition call_params (params : option nat) : M (option nat) :=
  auth ← gets _auth;
  if truthy auth then
    p ← match params with
        | None => dict_new []
        | Some p =>
            d ← dict_read p;
            match d with [] => dict_new [] | _ => mret p end
        end;
    d ← dict_read p;
    (if dict_in d (lit "auth") then skip
     else dict_write p (dict_set d (lit "auth") auth));;
    mret (Some p)
  else mret params.

(** [WsRPC.call], up to and including [await self._send_json(...)]: the
    call that was registered and sent. *)
Definition call_issue (method : list Z) (params : option nat) : M RPCCall :=
  c ← gets _client;
  match c with
  | None => raise (RuntimeError "Not connected")
  | Some _ =>
      params ← call_params params;
      id ← _next_id;
      route ← gets _route;
      call ← RPCCall_init id method params route;
      calls ← gets _calls;
      modify (with_calls (<[call_id call := call]> calls));;
      frame ← request_frame call;
      _send_json frame;;
      mret call
  end.

(** [e[k]] for a [str] key [k]: only a [dict] can be subscripted so. *)
Definition subscript (e : value) (k : list Z) : result value :=
  match e with
  | PyDict d =>
      match dict_get d k with
      | Some v => Ok v
      | None => Raise KeyError
      end
  | _ => Raise TypeError
  end.

(** [WsRPC.call], from the response [resp] on. *)
Definition call_result (resp : list (list Z * value)) : result value :=
  match dict_get resp (lit "result") with
  | Some r => Ok r
  | None =>
      let raised :=
        match subscript (PyDict resp) (lit "error") with
        | Raise e => e
        | Ok err =>
            match subscript err (lit "code") with
            | Raise e => e
            | Ok code =>
                match subscript err (lit "message") with
                | Raise e => e
                | Ok msg => JSONRPCError code msg
                end
            end
        end in
      match raised with
      | KeyError => Raise (RPCError (PyDict resp))
      | e => Raise e
      end
  end.

(** [resp = await call.resolve] and what follows, once the future is done;
    [None] while the caller is still suspended. The timeout is not
    modelled. *)
Definition call_await (call : RPCCall) : M (option value) :=
  fs ← gets futures;
  match fs !! resolve call with
  | Some (Finished resp) => r ← lift (call_result resp); mret (Some r)
  | Some Cancelled => raise CancelledError
  | _ => mret None
  end.

(** A websocket message: its type, and for [TEXT] what [msg.json()] gives
    ([None] when it raises [ValueError]). *)
Inductive WSMessage :=
| TEXT (json : option value)
| BINARY
| PING
| PONG
| CLOSE
| CLOSING
| CLOSED
| ERROR.

(** [WsRPC._receive_json_or_raise], on the message received. *)
Definition _receive_json_or_raise (msg : WSMessage) : result value :=
  match msg with
  | CLOSE | CLOSED | CLOSING => Raise ConnectionClosed
  | ERROR => Raise ConnectionFailed
  | TEXT (Some data) => Ok data
  | TEXT None => Raise InvalidMessage
  | _ => Raise InvalidMessage
  end.

(** [self._client.closed] *)
Definition client_closed : M bool :=
  c ← gets _client;
  match c with
  | Some c => mret (closed c)
  | None => raise AttributeError
  end.

(** The transport sets its [closed] flag on its own; [flag] is what it is
    when [receive()] returns. *)
Definition transport_sets_closed (flag : bool) : M unit :=
  modify (λ s, with_client
                 ((λ c, mkClient flag (send_error c)) <$> _client s) s).

(** The [while] loop of [_rx_msgs] over what [receive()] returns, each
    message with the transport's [closed] flag at that moment. [false]:
    the messages ran out and the loop is suspended in [receive()];
    [true]: the loop was left. *)
Fixpoint rx_loop (incoming : list (WSMessage * bool)) : M bool :=
  is_closed ← client_closed;
  if negb is_closed then
    match incoming with
    | [] => mret false
    | (msg, flag) :: rest =>
        transport_sets_closed flag;;
        match _receive_json_or_raise msg with
        | Raise ConnectionClosed => mret true
        | Raise e => raise e
        | Ok frame =>
            is_closed ← client_closed;
            (if negb is_closed then _handle_frame frame else skip);;
            rx_loop rest
        end
    end
  else mret true.

(** [self._calls.values()]. A [dict] is walked in the order in which its
    keys were inserted. The registry has one insertion,
    [self._calls[call.call_id] = call] in [call], under the id [_next_id]
    has just made, which is above every id made before; [pop] and [clear]
    keep the order of what stays. So the calls come in the order of their
    ids. *)
Definition id_le (x y : Z * RPCCall) : Prop := x.1 ≤ y.1.

#[local] Instance id_le_dec : RelDecision id_le := λ x y, decide (x.1 ≤ y.1).

Definition calls_values (calls : gmap Z RPCCall) : list RPCCall :=
  (merge_sort id_le (map_to_list calls)).*2.

(** The walk over [self._calls.values()]. *)
Definition cancel_all (calls : list RPCCall) : M unit :=
  foldr (λ call_item rest, Future_cancel (resolve call_item);; rest) skip calls.

(** What [_rx_msgs] does once the loop is left, up to the [await] of
    [self._client.close()]: the futures are cancelled, the registry is
    cleared, and [close()] is called if the transport is not closed, which
    sets the transport's [closed] flag. [true]: the coroutine is suspended
    in [close()], and other tasks run before it goes on. *)
Definition teardown_begin : M bool :=
  calls ← gets _calls;
  cancel_all (calls_values calls);;
  modify (with_calls ∅);;
  is_closed ← client_closed;
  if negb is_closed
  then emit CloseClient;; transport_sets_closed true;; mret true
  else mret false.

(** The two statements that follow it, once [close()] has returned. *)
Definition teardown_end : M unit :=
  modify (with_client None);;
  emit (OnNotification [NOTIFY_WS_CLOSED]).

(** The teardown when no other task runs while [close()] is awaited. *)
Definition teardown : M unit := teardown_begin;; teardown_end.

(** [WsRPC._rx_msgs]; the result tells whether it returned. *)
Definition _rx_msgs (incoming : list (WSMessage * bool)) : M bool :=
  c ← gets _client;
  match c with
  | None => raise AssertionError
  | Some _ =>
      left ← rx_loop incoming;
      match left with
      | true => teardown;; mret true
      | false => mret false
      end
  end.

(* ===================================================================== *)
(** ** The digest handshake of [WsRPC.connect] *)
(* ===================================================================== *)

#[global] Instance result_ret : MRet result := λ A a, Ok a.
#[global] Instance result_bind : MBind result := λ A B f r,
  match r with
  | Ok a => f a
  | Raise e => Raise e
  end.

(** [str(z)] for an [int]. *)
Definition decimal (z : Z) : list Z :=
  lit (NilZero.string_of_int (Z.to_int z)).

Section Handshake.

(** [str()] of a [list] or a [dict] is Python's [repr] of it, which is
    left open. *)
Variable repr : value → list Z.

(** [f"{v}"] *)
Definition format (v : value) : list Z :=
  match v with
  | PyStr s => s
  | PyInt z => decimal z
  | PyBool true => lit "True"
  | PyBool false => lit "False"
  | PyNone => lit "None"
  | _ => repr v
  end.

(** [WsRPC.connect], from [response_message = json.loads(err.message)]
    to the [auth] handed to [set_auth]; [cnonce] is what
    [secrets.randbelow(10**8)] returned. *)
Definition connect_auth (password : list Z) (response_message : value)
    (cnonce : Z) : result value :=
  let username := lit "admin" in
  realm ← subscript response_message (lit "realm");
  ha1 ← hex_hash (username ++ lit ":" ++ format realm ++ lit ":" ++ password);
  ha2 ← hex_hash (lit "dummy_method:dummy_uri");
  let response_message :=
    match response_message with
    | PyDict d =>
        if dict_in d (lit "nc") then response_message
        else PyDict (dict_set d (lit "nc") (PyInt 1))
    | _ => response_message
    end in
  nonce ← subscript response_message (lit "nonce");
  nc ← subscript response_message (lit "nc");
  hashed ← hex_hash (ha1 ++ lit ":" ++ format nonce ++ lit ":" ++ format nc
                       ++ lit ":" ++ decimal cnonce ++ lit ":auth:" ++ ha2);
  realm ← subscript response_message (lit "realm");
  nonce ← subscript response_message (lit "nonce");
  mret (PyDict [(lit "realm", realm);
                (lit "username", PyStr (lit "admin"));
                (lit "nonce", nonce);
                (lit "cnonce", PyInt cnonce);
                (lit "response", PyStr hashed);
                (lit "algorithm", PyStr (lit "SHA-256"))]).

End Handshake.

(* ===================================================================== *)
(** ** Running the model *)
(* ===================================================================== *)

Ltac unfold_M :=
  unfold skip, emit in *;
  unfold mbind, mret, M_bind, M_ret, result_bind, result_ret,
    raise, gets, modify, lift in *.

Ltac state_simpl :=
  cbn [_auth _client _calls _call_id _route dicts futures trace
       with_auth with_client with_calls with_call_id with_route with_dicts
       with_futures with_trace fst snd
       call_id method params call_src call_dst resolve auth] in *.

(** The registry as [call] keeps it: the counter never goes below its
    initial 0, a call is filed under its own id, ids are positive and at
    most the counter, a registered call's future has
    no result yet, and no two registered calls share a future. *)
Record registry_ok (s : WsRPC) : Prop := {
  ok_counter : 0 ≤ _call_id s;
  ok_id : ∀ n c, _calls s !! n = Some c → call_id c = n ∧ 0 < n ≤ _call_id s;
  ok_future : ∀ n c, _calls s !! n = Some c →
    futures s !! resolve c = Some Pending ∨
    futures s !! resolve c = Some Cancelled;
  ok_distinct : ∀ n1 n2 c1 c2,
    _calls s !! n1 = Some c1 → _calls s !! n2 = Some c2 →
    resolve c1 = resolve c2 → n1 = n2;
}.

(** A response frame for call [n]: [id] is [n], no truthy [method]. *)
Definition response_for (n : Z) (frame : list (list Z * value)) : Prop :=
  get frame (lit "id") = PyInt n ∧ truthy (get frame (lit "method")) = false.

(** What the bookkeeping of [update_route] amounts to: the route and
    the warning, if any, a frame leaves behind. *)
Definition route_after (frame : list (list Z * value)) (r : RouteData) : RouteData :=
  let peer_src := get frame (lit "src") in
  if truthy peer_src then mkRoute (route_src r) (Some peer_src) else r.

Definition route_warning (frame : list (list Z * value)) (r : RouteData) : list event :=
  let peer_src := get frame (lit "src") in
  match route_dst r with
  | Some dst =>
      if truthy peer_src && negb (py_eq peer_src dst)
      then [LogWarning "Remote src changed: %s -> %s" [dst; peer_src]]
      else []
  | None => []
  end.

Lemma with_same s :
  with_trace (trace s ++ []) (with_route (_route s) s) = s.
Proof. rewrite app_nil_r. destruct s; reflexivity. Qed.

Lemma update_route_run frame s :
  update_route frame s =
    (Ok tt, with_trace (trace s ++ route_warning frame (_route s))
              (with_route (route_after frame (_route s)) s)).
Proof.
  unfold update_route, route_after, route_warning.
  destruct (truthy _); simpl.
  - unfold_M. simpl. destruct (route_dst (_route s)) as [d|]; simpl.
    + destruct (negb _); simpl; [reflexivity|].
      rewrite app_nil_r. destruct s; reflexivity.
    + rewrite app_nil_r. destruct s; reflexivity.
  - destruct (route_dst _); rewrite with_same; reflexivity.
Qed.

Lemma dispatch_response s n frame call :
  response_for n frame → n ≠ 0 →
  _calls s !! n = Some call →
  futures s !! resolve call = Some Pending →
  dispatch frame s =
    (Ok tt, with_futures (<[resolve call := Finished frame]> (futures s))
              (with_trace (trace s ++ [FutureSetResult (resolve call) frame])
                 (with_calls (delete n (_calls s)) s))).
Proof.
  intros [Hid Hm] Hn Hc Hf. unfold dispatch. rewrite Hid, Hm. simpl.
  destruct (Z.eqb_spec n 0) as [|_]; [done|]. simpl.
  unfold Future_cancelled, Future_set_result. unfold_M. simpl.
  rewrite Hc. simpl. rewrite Hf. simpl. rewrite Hf. reflexivity.
Qed.

(** *** What [dispatch] can change *)

(** The parts of the state that only [connect], [call] and the teardown
    write. *)
Definition same_engine (s s' : WsRPC) : Prop :=
  _auth s' = _auth s ∧ _client s' = _client s ∧ _call_id s' = _call_id s ∧
  dicts s' = dicts s.

(** Either the registry and the futures are as before, or one call was
    popped and at most its own future was given the frame. *)
Definition popped_at_most_one (frame : list (list Z * value)) (s s' : WsRPC) : Prop :=
  (_calls s' = _calls s ∧ futures s' = futures s) ∨
  ∃ k call, _calls s !! k = Some call ∧ _calls s' = delete k (_calls s) ∧
    (futures s' = futures s ∨
     (futures s !! resolve call = Some Pending ∧
      futures s' = <[resolve call := Finished frame]> (futures s))).

Lemma dispatch_shape frame s :
  let s' := (dispatch frame s).2 in
  same_engine s s' ∧ _route s' = _route s ∧ popped_at_most_one frame s s'.
Proof.
  unfold dispatch, same_engine, popped_at_most_one.
  destruct (truthy (get frame (lit "method"))).
  { destruct (truthy _); simpl; auto 10. }
  destruct (truthy (get frame (lit "id"))); [|simpl; auto 10].
  unfold_M. destruct (calls_key _) as [[k|]|e]; simpl; auto 10.
  destruct (_calls s !! k) as [call|] eqn:Hk; simpl; auto 10.
  unfold Future_cancelled, Future_set_result. unfold_M. simpl.
  destruct (futures s !! resolve call) as [[| |r]|] eqn:Hf; simpl;
    try rewrite Hf; simpl; repeat split; eauto 10.
Qed.

Lemma registry_ok_popped frame s s' :
  registry_ok s → _call_id s' = _call_id s →
  popped_at_most_one frame s s' → registry_ok s'.
Proof.
  intros [Hcnt Hid Hfut Hdis] Hcid [[Hc Hf]|(k & call & Hk & Hc & Hf)].
  - split; rewrite ?Hc, ?Hf, ?Hcid; auto.
  - assert (Hother : ∀ n c, delete k (_calls s) !! n = Some c →
              n ≠ k ∧ _calls s !! n = Some c ∧ resolve c ≠ resolve call).
    { intros n c Hn. apply lookup_delete_Some in Hn as [Hne Hn].
      repeat split; auto. intros Heq. apply Hne. symmetry. eauto. }
    split; rewrite ?Hc, ?Hcid; [done|..].
    + intros n c Hn. apply Hother in Hn as (_ & Hn & _). auto.
    + intros n c Hn. apply Hother in Hn as (_ & Hn & Hr).
      destruct Hf as [-> | [_ ->]]; [eauto|].
      rewrite lookup_insert_ne by done. eauto.
    + intros n1 n2 c1 c2 H1 H2.
      apply Hother in H1 as (_ & H1 & _). apply Hother in H2 as (_ & H2 & _).
      eauto.
Qed.

Lemma handle_frame_shape frame s :
  let s' := (_handle_frame frame s).2 in
  same_engine s s' ∧
  (∀ d, frame = PyDict d →
     _route s' = route_after d (_route s) ∧
     popped_at_most_one d s s').
Proof.
  destruct frame as [| | | | |d]; simpl;
    try (unfold same_engine; repeat split; auto; intros; discriminate).
  unfold mbind, M_bind. rewrite update_route_run.
  pose proof (dispatch_shape d
    (with_trace (trace s ++ route_warning d (_route s))
       (with_route (route_after d (_route s)) s))) as (Heng & Hr & Hp).
  simpl in *. split; [exact Heng|].
  intros d' [= <-]. split; [exact Hr|exact Hp].
Qed.

Lemma handle_frame_ok frame s :
  registry_ok s → registry_ok (_handle_frame frame s).2.
Proof.
  intros Hok. destruct (handle_frame_shape frame s) as [(_ & _ & Hcid & _) Hd].
  destruct frame as [| | | | |d]; try exact Hok.
  destruct (Hd d eq_refl) as [_ Hp].
  eapply registry_ok_popped; eauto.
Qed.

(** *** The receive loop on an open connection *)

Definition is_open (s : WsRPC) : Prop :=
  ∃ c, _client s = Some c ∧ closed c = false.

Lemma transport_keeps_flag s c :
  _client s = Some c →
  transport_sets_closed (closed c) s = (Ok tt, s).
Proof.
  intros Hc. unfold transport_sets_closed, modify. f_equal.
  destruct s as [? cl ? ? ? ? ? ?]; simpl in *. subst cl.
  destruct c; reflexivity.
Qed.

Lemma rx_loop_done s :
  is_open s → rx_loop [] s = (Ok false, s).
Proof.
  intros (c & Hc & Ho). simpl. unfold client_closed. unfold_M.
  rewrite Hc, Ho. reflexivity.
Qed.

Lemma rx_loop_frame frame rest s :
  is_open s →
  rx_loop ((TEXT (Some frame), false) :: rest) s =
    (_handle_frame frame;; rx_loop rest) s.
Proof.
  intros (c & Hc & Ho).
  change (rx_loop ((TEXT (Some frame), false) :: rest)) with
    (is_closed ← client_closed;
     if negb is_closed then
       transport_sets_closed false;;
       (is_closed ← client_closed;
        (if negb is_closed then _handle_frame frame else skip);;
        rx_loop rest)
     else mret true).
  assert (Hcl : client_closed s = (Ok false, s)).
  { unfold client_closed. unfold_M. rewrite Hc, Ho. reflexivity. }
  unfold mbind at 1, M_bind at 1. rewrite Hcl. cbn [negb].
  pose proof (transport_keeps_flag s c Hc) as Hflag. rewrite Ho in Hflag.
  unfold mbind at 1, M_bind at 1. rewrite Hflag.
  unfold mbind at 1, M_bind at 1. rewrite Hcl. reflexivity.
Qed.

Lemma handle_frame_open frame s :
  is_open s → is_open (_handle_frame frame s).2.
Proof.
  intros Ho. destruct (handle_frame_shape frame s) as [(_ & Hc & _) _].
  unfold is_open. rewrite Hc. exact Ho.
Qed.

(** One response frame, through [_handle_frame]. *)
Lemma handle_response s n frame call :
  registry_ok s → response_for n frame →
  _calls s !! n = Some call →
  futures s !! resolve call = Some Pending →
  ∃ s', _handle_frame (PyDict frame) s = (Ok tt, s') ∧
    _calls s' = delete n (_calls s) ∧
    futures s' = <[resolve call := Finished frame]> (futures s) ∧
    trace s' = trace s ++ route_warning frame (_route s)
                 ++ [FutureSetResult (resolve call) frame].
Proof.
  intros Hok Hresp Hc Hf.
  assert (n ≠ 0) by (apply (ok_id s Hok) in Hc; lia).
  simpl. unfold mbind, M_bind. rewrite update_route_run.
  erewrite dispatch_response; eauto.
  eexists. split; [reflexivity|]. simpl.
  rewrite <- app_assoc. auto.
Qed.

(* ===================================================================== *)
(** ** Correlation of responses with calls *)
(* ===================================================================== *)

(** The frames as the transport hands them to the loop, the connection
    staying open. *)
Definition deliver (frames : list (list (list Z * value))) : list (WSMessage * bool) :=
  map (λ frame, (TEXT (Some (PyDict frame)), false)) frames.

(** An event that touches no future but those of the calls [resps]
    answers, each with the frame bearing its own id. *)
Definition touches_only (s : WsRPC) (resps : list (Z * list (list Z * value)))
    (e : event) : Prop :=
  (∃ fmt args, e = LogWarning fmt args) ∨
  (∃ n frame call, (n, frame) ∈ resps ∧ _calls s !! n = Some call ∧
     e = FutureSetResult (resolve call) frame).

(** C1. Responses are matched with calls by id alone: whatever the calls
    registered and pending, and in whatever order response frames for
    some of them (distinct ids) reach the receive loop, each such call's
    future gets exactly the frame bearing its id and the call leaves the
    registry; every other registered call stays registered and no other
    future changes, the only future events being those results. *)
Theorem correlation_by_id (resps : list (Z * list (list Z * value))) (s : WsRPC) :
  registry_ok s → is_open s →
  NoDup resps.*1 →
  (∀ n frame, (n, frame) ∈ resps →
     response_for n frame ∧
     ∃ call, _calls s !! n = Some call ∧
             futures s !! resolve call = Some Pending) →
  ∃ s' t, rx_loop (deliver resps.*2) s = (Ok false, s') ∧
    (∀ n frame call, (n, frame) ∈ resps → _calls s !! n = Some call →
       futures s' !! resolve call = Some (Finished frame)) ∧
    (∀ n, _calls s' !! n =
          if decide (n ∈ resps.*1) then None else _calls s !! n) ∧
    (∀ l, (∀ n call, n ∈ resps.*1 → _calls s !! n = Some call →
                     resolve call ≠ l) →
          futures s' !! l = futures s !! l) ∧
    trace s' = trace s ++ t ∧ Forall (touches_only s resps) t.
Proof.
  revert s. induction resps as [|[n frame] rest IH]; intros s Hok Hopen Hnd Hall.
  { exists s, []. split; [by apply rx_loop_done|].
    rewrite app_nil_r. repeat split; auto.
    intros ? ? ? Hin. by apply elem_of_nil in Hin. }
  apply NoDup_cons in Hnd as [Hn Hnd]. simpl in Hn.
  destruct (Hall n frame) as (Hresp & call & Hcall & Hfut); [left|].
  destruct (handle_response s n frame call Hok Hresp Hcall Hfut)
    as (s1 & Hrun & Hcalls1 & Hfut1 & Htr1).
  assert (Hok1 : registry_ok s1).
  { pose proof (handle_frame_ok (PyDict frame) s Hok) as H. by rewrite Hrun in H. }
  assert (Hopen1 : is_open s1).
  { pose proof (handle_frame_open (PyDict frame) s Hopen) as H. by rewrite Hrun in H. }
  assert (Hrest : ∀ m call', m ∈ rest.*1 → _calls s !! m = Some call' →
            m ≠ n ∧ resolve call' ≠ resolve call).
  { intros m call' Hm Hc'. assert (m ≠ n) by (intros ->; done).
    split; [done|]. intros Heq. by pose proof (ok_distinct s Hok _ _ _ _ Hc' Hcall Heq). }
  destruct (IH s1 Hok1 Hopen1 Hnd) as (s' & t & Hloop & Hres & Hreg & Hoth & Htr & Hev).
  { intros m fr Hin. destruct (Hall m fr) as (Hr & call' & Hc' & Hf'); [by right|].
    split; [done|]. exists call'.
    assert (m ∈ rest.*1) as Hm by (apply list_elem_of_fmap; by exists (m, fr)).
    destruct (Hrest m call' Hm Hc') as [Hne Hrne].
    rewrite Hcalls1, Hfut1, lookup_delete_ne, lookup_insert_ne by done. done. }
  exists s', (route_warning frame (_route s)
               ++ [FutureSetResult (resolve call) frame] ++ t).
  split.
  { change (deliver ((n, frame) :: rest).*2)
      with ((TEXT (Some (PyDict frame)), false) :: deliver rest.*2).
    rewrite rx_loop_frame by done.
    unfold mbind, M_bind. rewrite Hrun. exact Hloop. }
  split; [|split; [|split; [|split]]].
  - intros m fr call' Hin Hc'. apply elem_of_cons in Hin as [[= -> ->]|Hin].
    + assert (call' = call) as -> by congruence.
      rewrite Hoth, Hfut1, lookup_insert_eq; [done|].
      intros m c' Hm Hc1. rewrite Hcalls1 in Hc1.
      apply lookup_delete_Some in Hc1 as [_ Hc1].
      by destruct (Hrest m c' Hm Hc1).
    + assert (m ∈ rest.*1) as Hm by (apply list_elem_of_fmap; by exists (m, fr)).
      destruct (Hrest m call' Hm Hc') as [Hne _].
      apply (Hres m); [done|]. by rewrite Hcalls1, lookup_delete_ne.
  - intros m. rewrite Hreg, Hcalls1.
    change (((n, frame) :: rest).*1) with (n :: rest.*1).
    destruct (decide (m = n)) as [->|Hne].
    + rewrite lookup_delete_eq.
      rewrite (decide_True (P := n ∈ n :: rest.*1)) by left.
      by destruct (decide _).
    + rewrite lookup_delete_ne by done.
      destruct (decide (m ∈ rest.*1)) as [Hm|Hm].
      * rewrite decide_True; [done|by right].
      * rewrite decide_False; [done|].
        intros [?|?]%elem_of_cons; done.
  - intros l Hl. rewrite Hoth, Hfut1.
    + rewrite lookup_insert_ne; [done|]. apply (Hl n); [left|done].
    + intros m c' Hm Hc1. rewrite Hcalls1 in Hc1.
      apply lookup_delete_Some in Hc1 as [_ Hc1].
      apply (Hl m); [by right|done].
  - rewrite Htr, Htr1, <- !app_assoc. done.
  - apply Forall_app. split.
    { unfold route_warning. destruct (route_dst _); [|constructor].
      destruct (_ && _); constructor; [|constructor]. left. eauto. }
    constructor.
    { right. exists n, frame, call. split; [left|done]. }
    eapply Forall_impl; [exact Hev|]. intros e [Hw|(m & fr & c' & Hin & Hc1 & ->)].
    + by left.
    + right. exists m, fr, c'. split; [by right|]. split; [|done].
      rewrite Hcalls1 in Hc1. by apply lookup_delete_Some in Hc1 as [_ Hc1].
Qed.

(* ===================================================================== *)
(** ** Issuing a call *)
(* ===================================================================== *)

(** The caller's [dict], as [call] finds it. *)
Definition caller_dict (s : WsRPC) (params : option nat) : list (list Z * value) :=
  match params with
  | Some p => default [] (dicts s !! p)
  | None => []
  end.

(** The [params] and the [dict]s after the [if self._auth:] block. *)
Definition params_built (s : WsRPC) (params_ : option nat)
  : option nat * gmap nat (list (list Z * value)) :=
  if truthy (_auth s) then
    match params_, caller_dict s params_ with
    | Some p, (_ :: _) as d =>
        (Some p,
         if dict_in d (lit "auth") then dicts s
         else <[p := dict_set d (lit "auth") (_auth s)]> (dicts s))
    | _, _ =>
        let q := fresh (dom (dicts s)) in
        (Some q, <[q := [(lit "auth", _auth s)]]> (dicts s))
    end
  else (params_, dicts s).

Lemma with_dicts_same s : with_dicts (dicts s) s = s.
Proof. by destruct s. Qed.

Lemma call_params_run params_ s :
  call_params params_ s =
    (Ok (params_built s params_).1, with_dicts (params_built s params_).2 s).
Proof.
  unfold call_params, params_built, caller_dict, dict_new, dict_read,
    dict_write.
  unfold_M. state_simpl.
  destruct (truthy (_auth s)); [|by destruct s].
  destruct params_ as [p|]; state_simpl.
  - destruct (default [] (dicts s !! p)) as [|kv d] eqn:Hd; state_simpl.
    + rewrite lookup_insert_eq. cbn [from_option id dict_in dict_get dict_set].
      state_simpl. by rewrite insert_insert_eq.
    + rewrite Hd. destruct (dict_in _ _); state_simpl;
        [by destruct s|reflexivity].
  - rewrite lookup_insert_eq. cbn [from_option id dict_in dict_get dict_set].
    state_simpl. by rewrite insert_insert_eq.
Qed.

(** The call [RPCCall.__init__] builds and the [dict]s it leaves. *)
Definition auth_taken (s : WsRPC) (params_ : option nat) : value :=
  default (PyDict []) (dict_get (caller_dict s params_) (lit "auth")).

Definition dicts_taken (s : WsRPC) (params_ : option nat)
  : gmap nat (list (list Z * value)) :=
  match params_, dict_get (caller_dict s params_) (lit "auth") with
  | Some p, Some _ =>
      <[p := dict_del (caller_dict s params_) (lit "auth")]> (dicts s)
  | _, _ => dicts s
  end.

Lemma RPCCall_init_run id method_ params_ route s :
  RPCCall_init id method_ params_ route s =
    (Ok (mkCall id method_ params_ (route_src route) (route_dst route)
                (fresh (dom (futures s))) (auth_taken s params_)),
     with_dicts (dicts_taken s params_)
       (with_futures (<[fresh (dom (futures s)) := Pending]> (futures s)) s)).
Proof.
  unfold RPCCall_init, Future_new, dict_read, dict_write, auth_taken,
    dicts_taken, caller_dict.
  unfold_M. state_simpl.
  destruct params_ as [p|]; state_simpl; [|reflexivity].
  destruct (default [] (dicts s !! p)) as [|kv d]; state_simpl; [reflexivity|].
  destruct (dict_get (kv :: d) (lit "auth")); reflexivity.
Qed.

Lemma request_frame_run call s :
  ∃ frame, request_frame call s = (Ok (PyDict frame), s).
Proof.
  unfold request_frame, dict_read. unfold_M. state_simpl.
  destruct (params call); state_simpl; eexists; reflexivity.
Qed.

Lemma send_json_run data s c :
  _client s = Some c →
  _send_json data s =
    (match send_error c with Some e => Raise e | None => Ok tt end,
     with_trace (trace s ++ [SendJson data]) s).
Proof.
  intros Hc. unfold _send_json. unfold_M. rewrite Hc. state_simpl.
  destruct (send_error c); reflexivity.
Qed.

Lemma bind_run {A B} (m : M A) (f : A → M B) s a s' :
  m s = (Ok a, s') → (m ≫= f) s = f a s'.
Proof. intros H. unfold mbind, M_bind. by rewrite H. Qed.

Lemma bind_raise {A B} (m : M A) (f : A → M B) s e s' :
  m s = (Raise e, s') → (m ≫= f) s = (Raise e, s').
Proof. intros H. unfold mbind, M_bind. by rewrite H. Qed.

(** [call] on a connection handle that is set, phase by phase: the
    [params] and the [dict]s after the [if self._auth:] block, the call
    built from them, the frame sent, and the state left behind. *)
Lemma call_issue_run method_ params_ s c :
  _client s = Some c →
  let id := _call_id s + 1 in
  let fut := fresh (dom (futures s)) in
  let '(p, ds) := params_built s params_ in
  let s1 := with_call_id id (with_dicts ds s) in
  let call := mkCall id method_ p (route_src (_route s))
                (route_dst (_route s)) fut (auth_taken s1 p) in
  let s2 := with_dicts (dicts_taken s1 p)
              (with_futures (<[fut := Pending]> (futures s)) s1) in
  let s3 := with_calls (<[id := call]> (_calls s)) s2 in
  ∃ frame,
    request_frame call s3 = (Ok (PyDict frame), s3) ∧
    call_issue method_ params_ s =
      (match send_error c with Some e => Raise e | None => Ok call end,
       with_trace (trace s ++ [SendJson (PyDict frame)]) s3).
Proof.
  intros Hc. cbv zeta.
  pose proof (call_params_run params_ s) as Hp.
  destruct (params_built s params_) as [p ds]. cbn [fst snd] in Hp.
  set (id := _call_id s + 1).
  set (s1 := with_call_id id (with_dicts ds s)).
  pose proof (RPCCall_init_run id method_ p (_route s) s1) as Hinit.
  change (futures s1) with (futures s) in Hinit.
  set (call := mkCall id method_ p (route_src (_route s))
                 (route_dst (_route s)) (fresh (dom (futures s)))
                 (auth_taken s1 p)) in *.
  set (s2 := with_dicts (dicts_taken s1 p) _) in *.
  set (s3 := with_calls (<[id := call]> (_calls s)) s2).
  destruct (request_frame_run call s3) as (frame & Hframe).
  exists frame. split; [exact Hframe|].
  unfold call_issue.
  erewrite bind_run by reflexivity. rewrite Hc.
  erewrite bind_run by exact Hp.
  erewrite bind_run by reflexivity.
  erewrite bind_run by reflexivity.
  erewrite bind_run by exact Hinit.
  erewrite bind_run by reflexivity.
  erewrite bind_run by reflexivity.
  erewrite bind_run by exact Hframe.
  pose proof (send_json_run (PyDict frame) s3 c Hc) as Hsend.
  destruct (send_error c) as [e|].
  - erewrite bind_raise by exact Hsend. reflexivity.
  - erewrite bind_run by exact Hsend. reflexivity.
Qed.

(** What [call] does to the registry, the counter and the futures, on a
    connection handle that is set. *)
Lemma call_issue_shape method_ params_ s c :
  _client s = Some c →
  ∃ call s',
    (call_issue method_ params_ s).2 = s' ∧
    _calls s' = <[_call_id s + 1 := call]> (_calls s) ∧
    call_id call = _call_id s + 1 ∧
    resolve call = fresh (dom (futures s)) ∧
    futures s' = <[resolve call := Pending]> (futures s) ∧
    _call_id s' = _call_id s + 1 ∧
    _client s' = _client s ∧ _route s' = _route s ∧ _auth s' = _auth s.
Proof.
  intros Hc.
  pose proof (call_issue_run method_ params_ s c Hc) as Hrun. cbv zeta in Hrun.
  destruct (params_built s params_) as [p ds].
  destruct Hrun as (frame & _ & ->).
  eexists _, _. split; [reflexivity|]. state_simpl. repeat split; reflexivity.
Qed.

Lemma registry_ok_init tag : registry_ok (WsRPC_init tag).
Proof. split; simpl; [done|..]; intros *; rewrite lookup_empty; done. Qed.

Lemma call_issue_ok method_ params_ s :
  registry_ok s → registry_ok (call_issue method_ params_ s).2.
Proof.
  intros Hok. destruct (_client s) as [c|] eqn:Hc.
  2: { unfold call_issue. unfold_M. by rewrite Hc. }
  destruct (call_issue_shape method_ params_ s c Hc)
    as (call & s' & -> & Hcalls & Hid & Hres & Hfut & Hcid & _).
  assert (Hfresh : futures s !! resolve call = None).
  { rewrite Hres. apply not_elem_of_dom, is_fresh. }
  assert (Hnew : _calls s !! (_call_id s + 1) = None).
  { destruct (_calls s !! _) as [c0|] eqn:Hc0; [|done].
    apply (ok_id s Hok) in Hc0. lia. }
  assert (Hold : ∀ n c0, _calls s !! n = Some c0 → resolve c0 ≠ resolve call).
  { intros n c0 Hn Heq. apply (ok_future s Hok) in Hn.
    rewrite Heq, Hfresh in Hn. by destruct Hn. }
  pose proof (ok_counter s Hok) as Hcnt.
  split; rewrite ?Hcalls, ?Hfut, ?Hcid; [lia|..].
  - intros n c0 [[<- <-]|[Hne Hn]]%lookup_insert_Some.
    + split; [done|lia].
    + apply (ok_id s Hok) in Hn. lia.
  - intros n c0 [[<- <-]|[Hne Hn]]%lookup_insert_Some.
    + left. apply lookup_insert_eq.
    + rewrite lookup_insert_ne by (intros E; by apply (Hold n c0 Hn)). exact (ok_future s Hok n c0 Hn).
  - intros n1 n2 c1 c2 [[<- <-]|[Hne1 H1]]%lookup_insert_Some
      [[<- <-]|[Hne2 H2]]%lookup_insert_Some Heq; try done.
    + symmetry in Heq. by apply (Hold _ _ H2) in Heq.
    + by apply (Hold _ _ H1) in Heq.
    + exact (ok_distinct s Hok _ _ _ _ H1 H2 Heq).
Qed.

Lemma registry_ok_with_client c s :
  registry_ok s → registry_ok (with_client c s).
Proof. intros [? ? ? ?]. split; auto. Qed.

(** An engine with an open connection and two calls, ["A"] then ["B"],
    in flight. *)
Definition demo_open : WsRPC :=
  with_client (Some (mkClient false None)) (WsRPC_init (lit "aios-1")).

Definition demo_two_calls : WsRPC :=
  (call_issue (lit "B") None (call_issue (lit "A") None demo_open).2).2.

Definition demo_result (n r : Z) : list (list Z * value) :=
  [(lit "id", PyInt n); (lit "src", PyStr (lit "shelly")); (lit "result", PyInt r)].

Lemma demo_two_calls_ok : registry_ok demo_two_calls.
Proof.
  unfold demo_two_calls, demo_open.
  do 2 apply call_issue_ok. apply registry_ok_with_client, registry_ok_init.
Qed.

(** The response to the second call arrives first. *)
Lemma correlation_by_id_witness :
  ∃ s' t,
    rx_loop (deliver [demo_result 2 20; demo_result 1 10]) demo_two_calls
      = (Ok false, s') ∧
    (∀ n frame call,
       (n, frame) ∈ [(2, demo_result 2 20); (1, demo_result 1 10)] →
       _calls demo_two_calls !! n = Some call →
       futures s' !! resolve call = Some (Finished frame)) ∧
    (∀ n, _calls s' !! n =
          if decide (n ∈ [2; 1]) then None else _calls demo_two_calls !! n) ∧
    (∀ l, (∀ n call, n ∈ [2; 1] → _calls demo_two_calls !! n = Some call →
                     resolve call ≠ l) →
          futures s' !! l = futures demo_two_calls !! l) ∧
    trace s' = trace demo_two_calls ++ t ∧
    Forall (touches_only demo_two_calls
              [(2, demo_result 2 20); (1, demo_result 1 10)]) t.
Proof.
  apply (correlation_by_id [(2, demo_result 2 20); (1, demo_result 1 10)]
           demo_two_calls).
  - exact demo_two_calls_ok.
  - eexists. split; reflexivity.
  - apply (bool_decide_unpack _). reflexivity.
  - intros n frame Hin.
    apply elem_of_cons in Hin as [Heq|Hin];
      [|apply elem_of_cons in Hin as [Heq|Hin];
        [|by apply elem_of_nil in Hin]];
      injection Heq as -> ->.
    + split; [split; reflexivity|]. eexists. split; reflexivity.
    + split; [split; reflexivity|]. eexists. split; reflexivity.
Defined.

(** *** Facts about [dict]s *)

Lemma dict_in_get {A} (d : list (list Z * A)) k :
  dict_in d k = true ↔ is_Some (dict_get d k).
Proof.
  unfold dict_in.
  destruct (dict_get d k); split;
    first [done | by eexists | by intros [? ?]].
Qed.

Lemma dict_in_false {A} (d : list (list Z * A)) k :
  dict_in d k = false ↔ dict_get d k = None.
Proof. unfold dict_in. by destruct (dict_get d k). Qed.

Lemma dict_get_del {A} (d : list (list Z * A)) k :
  dict_get (dict_del d k) k = None.
Proof.
  unfold dict_del. induction d as [|[k' v] d IH]; [done|].
  rewrite filter_cons. simpl. destruct (decide (k' ≠ k)) as [Hne|_]; [|done].
  simpl. by rewrite decide_False.
Qed.

Lemma dict_get_del_ne {A} (d : list (list Z * A)) k k' :
  k ≠ k' → dict_get (dict_del d k) k' = dict_get d k'.
Proof.
  intros Hne. unfold dict_del. induction d as [|[k0 v] d IH]; [done|].
  rewrite filter_cons. simpl. destruct (decide (k0 ≠ k)) as [H0|H0]; simpl.
  - by rewrite IH.
  - apply dec_stable in H0 as ->. by rewrite decide_False.
Qed.

Lemma dict_del_absent {A} (d : list (list Z * A)) k :
  dict_get d k = None → dict_del d k = d.
Proof.
  unfold dict_del. induction d as [|[k' v] d IH]; [done|]. simpl.
  destruct (decide (k' = k)) as [->|Hne]; [done|]. intros Hd.
  rewrite filter_cons. simpl. rewrite decide_True by done. by rewrite IH.
Qed.

Lemma dict_del_set_absent {A} (d : list (list Z * A)) k v :
  dict_get d k = None → dict_del (dict_set d k v) k = d.
Proof.
  unfold dict_del. induction d as [|[k' v'] d IH]; simpl.
  - intros _. rewrite filter_cons. simpl. by rewrite decide_False by (by intros []).
  - destruct (decide (k' = k)) as [->|Hne]; [done|]. intros Hd.
    rewrite filter_cons. simpl. rewrite decide_True by done. by rewrite IH.
Qed.

Lemma dict_get_set_eq {A} (d : list (list Z * A)) k v :
  dict_get (dict_set d k v) k = Some v.
Proof.
  induction d as [|[k' v'] d IH]; simpl.
  - by rewrite decide_True.
  - destruct (decide (k' = k)) as [->|Hne]; simpl.
    + by rewrite decide_True.
    + by rewrite decide_False.
Qed.

(* ===================================================================== *)
(** ** [call] and the caller's [params] *)
(* ===================================================================== *)

(** C10. [call] changes the [dict] its caller passed: once the call is
    built, the caller's own [params] has no ["auth"] entry, whether the
    caller had put one there or the engine's credentials were put into it;
    its other entries are as they were, and so is every other [dict]. *)
Theorem call_takes_auth_out_of_params method_ p d s c :
  _client s = Some c → dicts s !! p = Some d →
  let s' := (call_issue method_ (Some p) s).2 in
  dicts s' !! p = Some (dict_del d (lit "auth")) ∧
  dict_in (dict_del d (lit "auth")) (lit "auth") = false ∧
  (∀ k, k ≠ lit "auth" →
        dict_get (dict_del d (lit "auth")) k = dict_get d k) ∧
  (∀ q, q ≠ p → is_Some (dicts s !! q) → dicts s' !! q = dicts s !! q).
Proof.
  intros Hc Hd.
  pose proof (call_issue_run method_ (Some p) s c Hc) as Hrun.
  cbv zeta in Hrun. cbv zeta.
  assert (Hfresh : fresh (dom (dicts s)) ≠ p).
  { intros Heq. apply (is_fresh (dom (dicts s))). rewrite Heq.
    by apply elem_of_dom. }
  assert (Hfresh' : ∀ q, is_Some (dicts s !! q) → fresh (dom (dicts s)) ≠ q).
  { intros q Hq Heq. apply (is_fresh (dom (dicts s))). rewrite Heq.
    by apply elem_of_dom. }
  split; [|split; [|split]].
  2: { apply dict_in_false, dict_get_del. }
  2: { intros k Hk. by apply dict_get_del_ne. }
  all: unfold params_built, caller_dict in Hrun; rewrite Hd in Hrun;
    cbn [from_option id] in Hrun;
    destruct (truthy (_auth s));
    [destruct d as [|kv d];
     [|destruct (dict_in (kv :: d) (lit "auth")) eqn:Hin]|];
    destruct Hrun as (frame & _ & ->);
    unfold dicts_taken, auth_taken, caller_dict; state_simpl.
  - rewrite lookup_insert_eq. cbn [from_option id dict_get].
    rewrite decide_True by done.
    rewrite lookup_insert_ne by done. rewrite lookup_insert_ne by done. done.
  - rewrite Hd. cbn [from_option id].
    apply dict_in_get in Hin as [a Ha]. rewrite Ha.
    by rewrite lookup_insert_eq.
  - rewrite lookup_insert_eq. cbn [from_option id].
    apply dict_in_false in Hin.
    rewrite dict_get_set_eq, lookup_insert_eq, dict_del_set_absent by done.
    by rewrite dict_del_absent.
  - rewrite Hd. cbn [from_option id].
    destruct (dict_get d (lit "auth")) eqn:Ha.
    + by rewrite lookup_insert_eq.
    + by rewrite dict_del_absent.
  - intros q Hqp Hq. specialize (Hfresh' q Hq).
    rewrite lookup_insert_eq. cbn [from_option id dict_get].
    rewrite decide_True by done.
    rewrite !lookup_insert_ne by done. done.
  - intros q Hqp Hq. rewrite Hd. cbn [from_option id].
    apply dict_in_get in Hin as [a Ha]. rewrite Ha.
    by rewrite lookup_insert_ne.
  - intros q Hqp Hq. rewrite lookup_insert_eq. cbn [from_option id].
    rewrite dict_get_set_eq. rewrite !lookup_insert_ne by done. done.
  - intros q Hqp Hq. rewrite Hd. cbn [from_option id].
    destruct (dict_get d (lit "auth")) eqn:Ha; [|done].
    by rewrite lookup_insert_ne.
Qed.

(** A caller's [params] holding credentials of its own. *)
Definition demo_params : list (list Z * value) :=
  [(lit "id", PyInt 0); (lit "auth", PyDict [(lit "realm", PyStr (lit "r"))])].

Definition demo_with_params : WsRPC :=
  with_dicts {[ 7%nat := demo_params ]} demo_open.

Lemma call_takes_auth_out_of_params_witness :
  dicts (call_issue (lit "Switch.GetStatus") (Some 7%nat) demo_with_params).2
    !! 7%nat = Some [(lit "id", PyInt 0)].
Proof.
  refine (proj1 (call_takes_auth_out_of_params (lit "Switch.GetStatus") 7%nat
                   demo_params demo_with_params (mkClient false None) _ _));
    reflexivity.
Defined.

(* ===================================================================== *)
(** ** [call] without a connection *)
(* ===================================================================== *)

(** C2, as the code has it. With the connection handle cleared
    ([self._client is None]) [call] raises [RuntimeError("Not connected")]
    at once: no id is allocated, nothing is registered or sent, the state
    is as it was. *)
Theorem call_not_connected method_ params_ s :
  _client s = None →
  call_issue method_ params_ s = (Raise (RuntimeError "Not connected"), s).
Proof. intros Hc. unfold call_issue. unfold_M. by rewrite Hc. Qed.

Lemma call_not_connected_witness :
  call_issue (lit "Sys.GetStatus") None (WsRPC_init (lit "aios-1")) =
    (Raise (RuntimeError "Not connected"), WsRPC_init (lit "aios-1")).
Proof.
  apply (call_not_connected (lit "Sys.GetStatus") None
           (WsRPC_init (lit "aios-1"))).
  reflexivity.
Defined.

(** With a handle that is set, open or closed, [call] goes ahead: it
    allocates the id, registers the call and hands the frame to the
    transport, whose [send_json] decides what happens next. *)
Lemma call_with_handle method_ params_ s c :
  _client s = Some c →
  ∃ call frame s',
    call_issue method_ params_ s =
      (match send_error c with Some e => Raise e | None => Ok call end, s') ∧
    _calls s' !! (_call_id s + 1) = Some call ∧
    _call_id s' = _call_id s + 1 ∧
    trace s' = trace s ++ [SendJson frame].
Proof.
  intros Hc. pose proof (call_issue_run method_ params_ s c Hc) as Hrun.
  cbv zeta in Hrun. destruct (params_built s params_) as [p ds].
  destruct Hrun as (frame & _ & ->).
  eexists _, _, _. split; [reflexivity|]. state_simpl.
  by rewrite lookup_insert_eq.
Qed.

(** A websocket whose [closed] flag is set and which refuses to send. *)
Definition demo_closed : WsRPC :=
  with_client
    (Some (mkClient true (Some (TransportError "ConnectionResetError"))))
    (WsRPC_init (lit "aios-1")).

(** C2 as stated fails: on a transport object that is closed, [connected]
    is false, yet [call] does not raise the not-connected error; it
    registers call 1 and ends with the transport's own error. *)
Lemma call_on_closed_transport :
  connected demo_closed = false ∧
  (call_issue (lit "Sys.GetStatus") None demo_closed).1 =
    Raise (TransportError "ConnectionResetError") ∧
  (call_issue (lit "Sys.GetStatus") None demo_closed).1 ≠
    Raise (RuntimeError "Not connected") ∧
  call_id <$> (_calls (call_issue (lit "Sys.GetStatus") None demo_closed).2
                !! 1) = Some 1.
Proof.
  split; [reflexivity|]. split; [reflexivity|].
  split; [discriminate|reflexivity].
Qed.

(* ===================================================================== *)
(** ** The outcome of a resolved call *)
(* ===================================================================== *)

(** What [call] makes of a response, by its fields. *)
Lemma call_result_cases resp :
  match dict_get resp (lit "result") with
  | Some r => call_result resp = Ok r
  | None =>
      match dict_get resp (lit "error") with
      | None => call_result resp = Raise (RPCError (PyDict resp))
      | Some (PyDict err) =>
          match dict_get err (lit "code"), dict_get err (lit "message") with
          | Some code, Some msg =>
              call_result resp = Raise (JSONRPCError code msg)
          | _, _ => call_result resp = Raise (RPCError (PyDict resp))
          end
      | Some _ => call_result resp = Raise TypeError
      end
  end.
Proof.
  unfold call_result, subscript.
  destruct (dict_get resp (lit "result")); [done|].
  destruct (dict_get resp (lit "error")) as [[| | | | |err]|]; try done.
  destruct (dict_get err (lit "code")); [|done].
  by destruct (dict_get err (lit "message")).
Qed.

(** Once its future holds a frame, the awaiting [call] ends as
    [call_result] says, and changes nothing. *)
Lemma call_await_finished call resp s :
  futures s !! resolve call = Some (Finished resp) →
  call_await call s =
    (match call_result resp with Ok r => Ok (Some r) | Raise e => Raise e end, s).
Proof.
  intros Hf. unfold call_await. unfold_M. rewrite Hf.
  by destruct (call_result resp).
Qed.

(** A response whose [error] is not a mapping. *)
Definition demo_bad_error : list (list Z * value) :=
  [(lit "id", PyInt 1); (lit "src", PyStr (lit "shelly"));
   (lit "error", PyStr (lit "boom"))].

(** C5 fails on the code. The response [{"id": 1, "error": "boom"}] has no
    [result] and no well-formed [error]; it resolves call 1, and [call]
    then ends with [TypeError], not with the [RPCError] for a bad
    response. *)
Theorem call_error_not_a_mapping :
  let s1 := (call_issue (lit "Sys.GetStatus") None demo_open).2 in
  let s2 := (_handle_frame (PyDict demo_bad_error) s1).2 in
  ∃ call, _calls s1 !! 1 = Some call ∧
    futures s2 !! resolve call = Some (Finished demo_bad_error) ∧
    (call_await call s2).1 = Raise TypeError ∧
    call_result demo_bad_error ≠ Raise (RPCError (PyDict demo_bad_error)).
Proof.
  eexists. split; [reflexivity|]. split; [reflexivity|].
  split; [reflexivity|discriminate].
Qed.

(* ===================================================================== *)
(** ** Classification of inbound frames *)
(* ===================================================================== *)

(** [_handle_frame] on a [dict]: the bookkeeping, then the dispatch. *)
Lemma handle_frame_run frame s :
  _handle_frame (PyDict frame) s =
    dispatch frame
      (with_trace (trace s ++ route_warning frame (_route s))
         (with_route (route_after frame (_route s)) s)).
Proof.
  unfold _handle_frame. unfold mbind, M_bind. by rewrite update_route_run.
Qed.

(** The frame with which the engine turns a peer's call down. *)
Definition rejection (frame_id : value) (src : list Z) : value :=
  PyDict [(lit "id", frame_id);
          (lit "src", PyStr src);
          (lit "error", PyDict [(lit "code", PyInt 500);
                                (lit "message", PyStr (lit "Not Implemented"))])].

Lemma handle_call_run frame_id s c :
  _client s = Some c →
  _handle_call frame_id s =
    (match send_error c with Some e => Raise e | None => Ok tt end,
     with_trace (trace s ++ [SendJson (rejection frame_id (route_src (_route s)))]) s).
Proof.
  intros Hc. unfold _handle_call.
  erewrite bind_run by reflexivity. rewrite Hc.
  erewrite bind_run by reflexivity.
  by rewrite (send_json_run _ s c Hc).
Qed.

(** C6, as the code has it. A frame whose [method] and [id] are both
    truthy is a peer's call: [_handle_frame] starts exactly one
    [_handle_call] task for its id and does nothing else but the route
    bookkeeping (the sink is not invoked, registry and futures stay as they
    are); that task, run while the connection handle is set, sends exactly
    one frame, the rejection with the request's id, the local route tag and
    the error 500 "Not Implemented". *)
Theorem peer_call_rejected frame s :
  truthy (get frame (lit "method")) = true →
  truthy (get frame (lit "id")) = true →
  _handle_frame (PyDict frame) s =
    (Ok tt,
     with_trace (trace s ++ route_warning frame (_route s)
                   ++ [CreateTask_handle_call (get frame (lit "id"))])
       (with_route (route_after frame (_route s)) s)) ∧
  ∀ s2 c, _client s2 = Some c →
    _handle_call (get frame (lit "id")) s2 =
      (match send_error c with Some e => Raise e | None => Ok tt end,
       with_trace
         (trace s2 ++ [SendJson (rejection (get frame (lit "id"))
                                   (route_src (_route s2)))]) s2).
Proof.
  intros Hm Hid. split.
  - rewrite handle_frame_run. unfold dispatch. rewrite Hm, Hid.
    unfold_M. state_simpl. by rewrite <- app_assoc.
  - intros s2 c Hc. by apply handle_call_run.
Qed.

Definition demo_peer_call : list (list Z * value) :=
  [(lit "id", PyInt 7); (lit "method", PyStr (lit "Foo"))].

Lemma peer_call_rejected_witness :
  trace (_handle_frame (PyDict demo_peer_call) demo_open).2 =
    [CreateTask_handle_call (PyInt 7)] ∧
  trace (_handle_call (PyInt 7) demo_open).2 =
    [SendJson (PyDict [(lit "id", PyInt 7);
                       (lit "src", PyStr (lit "aios-1"));
                       (lit "error",
                        PyDict [(lit "code", PyInt 500);
                                (lit "message", PyStr (lit "Not Implemented"))])])].
Proof.
  destruct (peer_call_rejected demo_peer_call demo_open eq_refl eq_refl)
    as [Hframe Hcall].
  split.
  - exact (f_equal (λ r, trace r.2) Hframe).
  - exact (f_equal (λ r, trace r.2)
             (Hcall demo_open (mkClient false None) eq_refl)).
Defined.

(** C6 as stated fails: [{"id": 0, "method": "Foo"}] has both fields, yet
    no rejection is started; the sink is invoked instead. *)
Lemma peer_call_id_zero_not_rejected :
  let frame := [(lit "id", PyInt 0); (lit "method", PyStr (lit "Foo"))] in
  dict_in frame (lit "id") = true ∧ dict_in frame (lit "method") = true ∧
  trace (_handle_frame (PyDict frame) demo_open).2 =
    [OnNotification [PyStr (lit "Foo"); PyNone]].
Proof. cbv zeta. split; [reflexivity|]. split; reflexivity. Qed.

(* ===================================================================== *)
(** ** The peer's route tag *)
(* ===================================================================== *)

(** Whether [dispatch] raises does not depend on the route or on the
    trace. *)
Lemma dispatch_outcome frame s s' :
  _calls s' = _calls s → futures s' = futures s →
  (dispatch frame s').1 = (dispatch frame s).1.
Proof.
  intros Hc Hf. unfold dispatch.
  destruct (truthy (get frame (lit "method"))).
  { by destruct (truthy _). }
  destruct (truthy (get frame (lit "id"))); [|done].
  unfold_M. destruct (calls_key _) as [[k|]|e]; simpl; try done.
  rewrite Hc. destruct (_calls s !! k) as [call|]; simpl; [|done].
  unfold Future_cancelled, Future_set_result. unfold_M. state_simpl.
  rewrite Hf.
  destruct (futures s !! resolve call) as [[| |r]|] eqn:E;
    cbn [negb]; state_simpl; rewrite ?Hf, ?E; done.
Qed.

(** C8, as the code has it. For a frame whose [src] is truthy: the tag is
    recorded as the peer's, whatever was recorded before; a warning with
    the old and the new tag is logged exactly when a tag was recorded and
    differs from the new one; and the bookkeeping never raises: the
    frame's handling ends as its dispatch alone would. *)
Theorem peer_tag_recorded frame s :
  truthy (get frame (lit "src")) = true →
  let peer_src := get frame (lit "src") in
  let s1 := (update_route frame s).2 in
  let s' := (_handle_frame (PyDict frame) s).2 in
  update_route frame s = (Ok tt, s1) ∧
  _route s1 = mkRoute (route_src (_route s)) (Some peer_src) ∧
  trace s1 = trace s ++
    match route_dst (_route s) with
    | Some dst =>
        if py_eq peer_src dst then []
        else [LogWarning "Remote src changed: %s -> %s" [dst; peer_src]]
    | None => []
    end ∧
  route_dst (_route s') = Some peer_src ∧
  (_handle_frame (PyDict frame) s).1 = (dispatch frame s).1.
Proof.
  intros Hsrc. cbv zeta.
  rewrite handle_frame_run, update_route_run. state_simpl.
  unfold route_after, route_warning. rewrite Hsrc. cbn [andb].
  split; [done|]. split; [done|]. split.
  { destruct (route_dst (_route s)); [|done]. by destruct (py_eq _ _). }
  split.
  - match goal with |- context [dispatch frame ?st] =>
      destruct (dispatch_shape frame st) as (_ & -> & _) end.
    done.
  - by apply dispatch_outcome.
Qed.

Definition demo_tagged : WsRPC :=
  with_route (mkRoute (lit "aios-1") (Some (PyStr (lit "X")))) demo_open.

Definition demo_notify (tag : string) : list (list Z * value) :=
  [(lit "src", PyStr (lit tag)); (lit "method", PyStr (lit "NotifyStatus"))].

Lemma peer_tag_recorded_witness :
  route_dst (_route (_handle_frame (PyDict (demo_notify "Y")) demo_tagged).2)
    = Some (PyStr (lit "Y")) ∧
  trace (update_route (demo_notify "Y") demo_tagged).2 =
    [LogWarning "Remote src changed: %s -> %s"
       [PyStr (lit "X"); PyStr (lit "Y")]].
Proof.
  destruct (peer_tag_recorded (demo_notify "Y") demo_tagged eq_refl)
    as (_ & _ & Htrace & Hdst & _).
  split; [exact Hdst|exact Htrace].
Defined.

(** C8 as stated fails: a frame that carries an empty [src] leaves the
    peer tag unset. *)
Lemma empty_src_not_recorded :
  let frame := [(lit "src", PyStr []); (lit "method", PyStr (lit "NotifyStatus"))] in
  dict_get frame (lit "src") = Some (PyStr []) ∧
  route_dst (_route demo_open) = None ∧
  route_dst (_route (_handle_frame (PyDict frame) demo_open).2) = None.
Proof. cbv zeta. split; [reflexivity|]. split; reflexivity. Qed.

(* ===================================================================== *)
(** ** Fields that are present but falsy *)
(* ===================================================================== *)

(** Neither a rejection task nor a call of the sink. *)
Definition no_peer_activity (e : event) : Prop :=
  match e with
  | CreateTask_handle_call _ | OnNotification _ => False
  | _ => True
  end.

Lemma dispatch_without_method frame s :
  truthy (get frame (lit "method")) = false →
  ∃ t, trace (dispatch frame s).2 = trace s ++ t ∧ Forall no_peer_activity t.
Proof.
  intros Hm. unfold dispatch. rewrite Hm.
  destruct (truthy (get frame (lit "id"))).
  2: { eexists [_]. split; [reflexivity|]. by repeat constructor. }
  unfold_M. destruct (calls_key _) as [[k|]|e]; simpl.
  - destruct (_calls s !! k) as [call|]; simpl.
    + unfold Future_cancelled, Future_set_result. unfold_M. state_simpl.
      destruct (futures s !! resolve call) as [[| |r]|] eqn:E;
        cbn [negb]; state_simpl; rewrite ?E.
      * eexists [_]. split; [reflexivity|]. by repeat constructor.
      * exists []. by rewrite app_nil_r.
      * eexists [_]. split; [reflexivity|]. by repeat constructor.
      * eexists [_]. split; [reflexivity|]. by repeat constructor.
    + eexists [_]. split; [reflexivity|]. by repeat constructor.
  - eexists [_]. split; [reflexivity|]. by repeat constructor.
  - exists []. by rewrite app_nil_r.
Qed.

(** C9. The classification goes by truthiness. With [id] 0 a frame that
    has a [method] goes to the sink and gets no rejection; with [id] 0 and
    no [method] it is logged as invalid and dropped, resolving nothing.
    A frame whose [method] is the empty string is handled as one without
    [method]: it starts no rejection task and reaches no sink; with a
    falsy [id] it is logged as invalid; with the id of a registered call it
    is that call's response, the call leaves the registry and its pending
    future gets the frame (a cancelled one is left alone); with any other
    hashable id it is logged as a response for an unknown request; an
    unhashable id raises. An empty [src] leaves the route as it is, without
    a warning. *)
Theorem falsy_fields_count_as_absent frame s :
  let s0 := with_trace (trace s ++ route_warning frame (_route s))
              (with_route (route_after frame (_route s)) s) in
  (get frame (lit "id") = PyInt 0 →
   truthy (get frame (lit "method")) = true →
   _handle_frame (PyDict frame) s =
     (Ok tt,
      with_trace (trace s0 ++ [OnNotification [get frame (lit "method");
                                               get frame (lit "params")]]) s0)) ∧
  (get frame (lit "id") = PyInt 0 →
   truthy (get frame (lit "method")) = false →
   _handle_frame (PyDict frame) s =
     (Ok tt,
      with_trace (trace s0 ++ [LogWarning "Invalid frame: %s" [PyDict frame]]) s0)) ∧
  (get frame (lit "method") = PyStr [] →
   (∃ t, trace (_handle_frame (PyDict frame) s).2 = trace s0 ++ t ∧
         Forall no_peer_activity t) ∧
   (truthy (get frame (lit "id")) = false →
    _handle_frame (PyDict frame) s =
      (Ok tt,
       with_trace (trace s0 ++ [LogWarning "Invalid frame: %s" [PyDict frame]])
         s0)) ∧
   (∀ n call,
      get frame (lit "id") = PyInt n → n ≠ 0 → _calls s !! n = Some call →
      (futures s !! resolve call = Some Pending →
       _handle_frame (PyDict frame) s =
         (Ok tt,
          with_futures (<[resolve call := Finished frame]> (futures s))
            (with_trace (trace s0 ++ [FutureSetResult (resolve call) frame])
               (with_calls (delete n (_calls s)) s0)))) ∧
      (futures s !! resolve call = Some Cancelled →
       _handle_frame (PyDict frame) s =
         (Ok tt, with_calls (delete n (_calls s)) s0))) ∧
   (∀ k,
      truthy (get frame (lit "id")) = true →
      calls_key (get frame (lit "id")) = Ok k → k ≫= (_calls s !!.) = None →
      _handle_frame (PyDict frame) s =
        (Ok tt,
         with_trace
           (trace s0 ++ [LogWarning "Response for an unknown request id: %s"
                           [get frame (lit "id")]]) s0)) ∧
   (∀ e,
      truthy (get frame (lit "id")) = true →
      calls_key (get frame (lit "id")) = Raise e →
      _handle_frame (PyDict frame) s = (Raise e, s0))) ∧
  (get frame (lit "src") = PyStr [] →
   s0 = s ∧ _handle_frame (PyDict frame) s = dispatch frame s).
Proof.
  cbv zeta. rewrite handle_frame_run.
  split; [|split; [|split]].
  - intros Hid Hm. unfold dispatch. by rewrite Hid, Hm.
  - intros Hid Hm. unfold dispatch. by rewrite Hid, Hm.
  - intros Hm.
    assert (Hfalsy : truthy (get frame (lit "method")) = false)
      by by rewrite Hm.
    split; [by apply dispatch_without_method|].
    split; [|split; [|split]].
    + intros Hid. unfold dispatch. by rewrite Hfalsy, Hid.
    + intros n call Hid Hn Hcall.
      assert (Hkey : truthy (get frame (lit "id")) = true).
      { rewrite Hid. cbn [truthy]. by apply negb_true_iff, Z.eqb_neq. }
      split; intros Hfut.
      * by rewrite (dispatch_response _ n frame call).
      * match goal with |- dispatch _ ?st = _ => set (s0 := st) end.
        assert (Hcall0 : _calls s0 !! n = Some call) by exact Hcall.
        assert (Hfut0 : futures s0 !! resolve call = Some Cancelled)
          by exact Hfut.
        change (_calls s) with (_calls s0). clearbody s0.
        unfold dispatch. rewrite Hid, Hfalsy. simpl.
        destruct (Z.eqb_spec n 0) as [|_]; [done|]. simpl.
        unfold Future_cancelled. unfold_M. simpl.
        rewrite Hcall0. simpl. rewrite Hfut0. reflexivity.
    + intros k Hid Hkey Hnone.
      match goal with |- dispatch _ ?st = _ => set (s0 := st) end.
      assert (Hnone0 : k ≫= (_calls s0 !!.) = None) by exact Hnone.
      clearbody s0.
      unfold dispatch. rewrite Hfalsy, Hid, Hkey. unfold_M.
      destruct k as [k|]; simpl in *; [|done]. by rewrite Hnone0.
    + intros e Hid Hkey. unfold dispatch. rewrite Hfalsy, Hid, Hkey.
      by unfold_M.
  - intros Hsrc.
    assert (with_trace (trace s ++ route_warning frame (_route s))
              (with_route (route_after frame (_route s)) s) = s) as ->; [|done].
    unfold route_after, route_warning. rewrite Hsrc. cbn [truthy andb].
    destruct (route_dst (_route s)); by rewrite with_same.
Qed.

(** The frame [{"id": 0, "method": "Foo"}], the response [{"id": 0}], a
    frame with an empty [src], and two frames with an empty [method], one
    bearing the id of the pending call 1 and one with [id] 0, on an engine
    whose call 1 is pending. *)
Lemma falsy_fields_count_as_absent_witness :
  let s := (call_issue (lit "Sys.GetStatus") None demo_open).2 in
  let answer := [(lit "id", PyInt 1); (lit "method", PyStr []);
                 (lit "result", PyInt 5)] in
  let empty := [(lit "id", PyInt 0); (lit "method", PyStr [])] in
  _handle_frame
    (PyDict [(lit "id", PyInt 0); (lit "method", PyStr (lit "Foo"))]) s
    = (Ok tt,
       with_trace (trace s ++ [OnNotification [PyStr (lit "Foo"); PyNone]]) s) ∧
  _handle_frame (PyDict [(lit "id", PyInt 0); (lit "result", PyInt 1)]) s
    = (Ok tt,
       with_trace
         (trace s ++
            [LogWarning "Invalid frame: %s"
               [PyDict [(lit "id", PyInt 0); (lit "result", PyInt 1)]]]) s) ∧
  _route (_handle_frame
            (PyDict [(lit "src", PyStr []); (lit "id", PyInt 1)]) s).2
    = _route s ∧
  (∃ call, _calls s !! 1 = Some call ∧
     _handle_frame (PyDict answer) s
       = (Ok tt,
          with_futures (<[resolve call := Finished answer]> (futures s))
            (with_trace (trace s ++ [FutureSetResult (resolve call) answer])
               (with_calls (delete 1 (_calls s)) s)))) ∧
  _handle_frame (PyDict empty) s
    = (Ok tt,
       with_trace (trace s ++ [LogWarning "Invalid frame: %s" [PyDict empty]])
         s).
Proof.
  cbv zeta. set (s := (call_issue _ _ _).2).
  split; [|split; [|split; [|split]]].
  - exact (proj1 (falsy_fields_count_as_absent
                    [(lit "id", PyInt 0); (lit "method", PyStr (lit "Foo"))]
                    s) eq_refl eq_refl).
  - exact (proj1 (proj2 (falsy_fields_count_as_absent
                    [(lit "id", PyInt 0); (lit "result", PyInt 1)] s))
             eq_refl eq_refl).
  - destruct (proj2 (proj2 (proj2 (falsy_fields_count_as_absent
                [(lit "src", PyStr []); (lit "id", PyInt 1)] s))) eq_refl)
      as [_ ->].
    reflexivity.
  - assert (Hcall : ∃ call, _calls s !! 1 = Some call ∧
                      futures s !! resolve call = Some Pending).
    { eexists. split; vm_compute; reflexivity. }
    destruct Hcall as (call & Hcall & Hfut). exists call. split; [exact Hcall|].
    destruct (proj1 (proj2 (proj2 (falsy_fields_count_as_absent
                [(lit "id", PyInt 1); (lit "method", PyStr []);
                 (lit "result", PyInt 5)] s))) eq_refl)
      as (_ & _ & Hresp & _).
    exact (proj1 (Hresp 1 call eq_refl ltac:(discriminate) Hcall) Hfut).
  - destruct (proj1 (proj2 (proj2 (falsy_fields_count_as_absent
                [(lit "id", PyInt 0); (lit "method", PyStr [])] s))) eq_refl)
      as (_ & Hinv & _).
    exact (Hinv eq_refl).
Defined.

(* ===================================================================== *)
(** ** The outbound frame of a call *)
(* ===================================================================== *)

Lemma request_frame_explicit call s :
  request_frame call s =
    (Ok (PyDict
           ([(lit "id", PyInt (call_id call));
             (lit "method", PyStr (method call));
             (lit "src", PyStr (call_src call))]
            ++ (if truthy (auth call) then [(lit "auth", auth call)] else [])
            ++ match params call with
               | Some p => [(lit "params", PyDict (default [] (dicts s !! p)))]
               | None => []
               end
            ++ match call_dst call with
               | Some d => [(lit "dst", d)]
               | None => []
               end)), s).
Proof.
  unfold request_frame, dict_read. unfold_M. state_simpl.
  destruct (truthy (auth call)), (params call), (call_dst call); reflexivity.
Qed.

(** The credentials a call carries: those in the caller's [params] if it
    has an ["auth"], else the engine's if it has any. *)
Definition auth_sent (s : WsRPC) (params_ : option nat) : value :=
  match dict_get (caller_dict s params_) (lit "auth") with
  | Some a => a
  | None => if truthy (_auth s) then _auth s else PyDict []
  end.

(** The [params] a call carries: the caller's without its ["auth"]; an
    empty [dict] if the caller gave none and the engine has credentials. *)
Definition params_sent (s : WsRPC) (params_ : option nat)
  : option (list (list Z * value)) :=
  match params_ with
  | Some _ => Some (dict_del (caller_dict s params_) (lit "auth"))
  | None => if truthy (_auth s) then Some [] else None
  end.

(** The frame of a call. *)
Definition frame_sent (s : WsRPC) (method_ : list Z) (params_ : option nat) : value :=
  PyDict
    ([(lit "id", PyInt (_call_id s + 1));
      (lit "method", PyStr method_);
      (lit "src", PyStr (route_src (_route s)))]
     ++ (if truthy (auth_sent s params_)
         then [(lit "auth", auth_sent s params_)] else [])
     ++ match params_sent s params_ with
        | Some d => [(lit "params", PyDict d)]
        | None => []
        end
     ++ match route_dst (_route s) with
        | Some d => [(lit "dst", d)]
        | None => []
        end).

Lemma call_built s params_ :
  let '(p, ds) := params_built s params_ in
  let s1 := with_dicts ds s in
  auth_taken s1 p = auth_sent s params_ ∧
  match p with
  | Some q => Some (default [] (dicts_taken s1 p !! q))
  | None => None
  end = params_sent s params_.
Proof.
  unfold params_built, auth_sent, params_sent, auth_taken, dicts_taken.
  destruct (truthy (_auth s)) eqn:Hauth.
  - assert (Hnew : ∀ q : nat,
      let s1 := with_dicts (<[q := [(lit "auth", _auth s)]]> (dicts s)) s in
      default (PyDict []) (dict_get (caller_dict s1 (Some q)) (lit "auth"))
        = _auth s ∧
      default []
        (match dict_get (caller_dict s1 (Some q)) (lit "auth") with
         | Some _ => <[q := dict_del (caller_dict s1 (Some q)) (lit "auth")]>
                       (dicts s1)
         | None => dicts s1
         end !! q) = []).
    { intros q. unfold caller_dict. state_simpl. rewrite lookup_insert_eq.
      cbn [from_option id dict_get]. rewrite decide_True by done.
      cbn [from_option id]. by rewrite lookup_insert_eq. }
    destruct params_ as [p|].
    + unfold caller_dict at 1. destruct (default [] (dicts s !! p)) as [|kv d] eqn:Hd.
      * destruct (Hnew (fresh (dom (dicts s)))) as [Ha Hp]. cbv zeta in Ha, Hp.
        rewrite Ha, Hp. unfold caller_dict. rewrite Hd. done.
      * destruct (dict_in (kv :: d) (lit "auth")) eqn:Hin.
        -- unfold caller_dict. state_simpl. rewrite Hd.
           apply dict_in_get in Hin as [a Ha]. rewrite Ha.
           by rewrite lookup_insert_eq.
        -- unfold caller_dict. state_simpl. rewrite lookup_insert_eq, Hd.
           cbn [from_option id]. apply dict_in_false in Hin.
           rewrite dict_get_set_eq, Hin, lookup_insert_eq.
           cbn [from_option id].
           by rewrite dict_del_set_absent, dict_del_absent.
    + destruct (Hnew (fresh (dom (dicts s)))) as [Ha Hp]. cbv zeta in Ha, Hp.
      by rewrite Ha, Hp.
  - destruct params_ as [p|]; [|done].
    unfold caller_dict. state_simpl.
    destruct (dict_get (default [] (dicts s !! p)) (lit "auth")) eqn:Ha.
    + by rewrite lookup_insert_eq.
    + by rewrite dict_del_absent.
Qed.

(** C7, as the code has it. The frame of a call has exactly: [id], the
    id allocated; [method]; [src], the local route tag; [auth] if and only
    if the credentials in force are truthy, the caller's own ["auth"] entry
    taking precedence over the engine's; [params] if and only if the caller
    gave a [params] or the engine has credentials, as the caller's mapping
    without its ["auth"] entry (empty when the caller gave none); [dst] if
    and only if a peer tag has been learned. *)
Theorem call_frame method_ params_ s c :
  _client s = Some c →
  trace (call_issue method_ params_ s).2 =
    trace s ++ [SendJson (frame_sent s method_ params_)].
Proof.
  intros Hc.
  pose proof (call_issue_run method_ params_ s c Hc) as Hrun.
  pose proof (call_built s params_) as Hbuilt.
  cbv zeta in Hrun.
  destruct (params_built s params_) as [p ds]. cbv zeta in Hbuilt.
  destruct Hbuilt as [Hauth Hparams].
  destruct Hrun as (frame & Hframe & ->).
  rewrite request_frame_explicit in Hframe.
  injection Hframe as <-.
  change (auth_taken (with_call_id (_call_id s + 1) (with_dicts ds s)) p)
    with (auth_taken (with_dicts ds s) p).
  change (dicts_taken (with_call_id (_call_id s + 1) (with_dicts ds s)) p)
    with (dicts_taken (with_dicts ds s) p).
  cbn [snd trace with_trace call_id method params call_src call_dst auth
       dicts with_calls with_dicts].
  unfold frame_sent. rewrite Hauth, <- Hparams.
  by destruct p.
Qed.

(** The engine once credentials are installed. *)
Definition demo_credentials : value :=
  PyDict [(lit "realm", PyStr (lit "r")); (lit "username", PyStr (lit "admin"))].

Definition demo_authenticated : WsRPC := (set_auth demo_credentials demo_open).2.

Lemma call_frame_witness :
  trace (call_issue (lit "Sys.GetStatus") None demo_authenticated).2 =
    [SendJson (PyDict [(lit "id", PyInt 1);
                       (lit "method", PyStr (lit "Sys.GetStatus"));
                       (lit "src", PyStr (lit "aios-1"));
                       (lit "auth", demo_credentials);
                       (lit "params", PyDict [])])].
Proof.
  exact (call_frame (lit "Sys.GetStatus") None demo_authenticated
           (mkClient false None) eq_refl).
Defined.

(** C7 as stated fails: with credentials installed, a call made without
    [params] still sends a [params] field. *)
Lemma call_without_params_sends_params :
  ∃ frame,
    trace (call_issue (lit "Sys.GetStatus") None demo_authenticated).2 =
      [SendJson (PyDict frame)] ∧
    dict_get frame (lit "params") = Some (PyDict []).
Proof. eexists. split; reflexivity. Qed.

(* ===================================================================== *)
(** ** Teardown *)
(* ===================================================================== *)

(** [cancel()] on one future, and on a list of them in turn. *)
Definition cancel_one (l : nat) (fs : gmap nat future) : gmap nat future :=
  match fs !! l with
  | Some Pending => <[l := Cancelled]> fs
  | _ => fs
  end.

Definition cancel_futures (ls : list nat) (fs : gmap nat future) : gmap nat future :=
  foldl (λ fs l, cancel_one l fs) fs ls.

Lemma Future_cancel_run l s :
  Future_cancel l s =
    (Ok tt, with_futures (cancel_one l (futures s))
              (with_trace (trace s ++ [FutureCancel l]) s)).
Proof.
  unfold Future_cancel, cancel_one. unfold_M. state_simpl.
  by destruct (futures s !! l) as [[| |?]|].
Qed.

Lemma cancel_all_run calls s :
  cancel_all calls s =
    (Ok tt, with_futures (cancel_futures (resolve <$> calls) (futures s))
              (with_trace (trace s ++ (FutureCancel <$> (resolve <$> calls))) s)).
Proof.
  revert s. induction calls as [|call calls IH]; intros s.
  - cbn. rewrite app_nil_r. by destruct s.
  - change (cancel_all (call :: calls))
      with (Future_cancel (resolve call);; cancel_all calls).
    erewrite bind_run by apply Future_cancel_run.
    rewrite IH. state_simpl. rewrite <- app_assoc. reflexivity.
Qed.

Lemma cancel_one_lookup l l' fs :
  cancel_one l fs !! l' =
    if decide (l = l')
    then match fs !! l with Some Pending => Some Cancelled | o => o end
    else fs !! l'.
Proof.
  unfold cancel_one. destruct (decide (l = l')) as [<-|Hne].
  - destruct (fs !! l) as [[| |?]|] eqn:E; rewrite ?lookup_insert_eq; done.
  - destruct (fs !! l) as [[| |?]|] eqn:E; rewrite ?lookup_insert_ne; done.
Qed.


Lemma cancel_futures_settled ls fs l :
  fs !! l = Some Cancelled → cancel_futures ls fs !! l = Some Cancelled.
Proof.
  revert fs. induction ls as [|l0 ls IH]; intros fs Hl; [done|].
  change (cancel_futures (l0 :: ls) fs) with (cancel_futures ls (cancel_one l0 fs)).
  apply IH. rewrite cancel_one_lookup.
  destruct (decide (l0 = l)) as [->|]; by rewrite ?Hl.
Qed.

Lemma cancel_futures_cancelled ls fs l :
  l ∈ ls → fs !! l = Some Pending ∨ fs !! l = Some Cancelled →
  cancel_futures ls fs !! l = Some Cancelled.
Proof.
  revert fs. induction ls as [|l0 ls IH]; intros fs Hin Hl.
  { by apply elem_of_nil in Hin. }
  change (cancel_futures (l0 :: ls) fs) with (cancel_futures ls (cancel_one l0 fs)).
  destruct (decide (l0 = l)) as [->|Hne].
  - apply cancel_futures_settled. rewrite cancel_one_lookup, decide_True by done.
    by destruct Hl as [-> | ->].
  - apply elem_of_cons in Hin as [?|Hin]; [done|].
    apply IH; [done|]. by rewrite cancel_one_lookup, decide_False.
Qed.

(** The futures of the registered calls, in the order of the walk. *)
Definition slots (s : WsRPC) : list nat :=
  resolve <$> calls_values (_calls s).

Lemma calls_values_elem calls c :
  c ∈ calls_values calls ↔ ∃ n, calls !! n = Some c.
Proof.
  unfold calls_values. rewrite list_elem_of_fmap. split.
  - intros ([n c'] & -> & Hin). exists n.
    rewrite merge_sort_Permutation in Hin. by apply elem_of_map_to_list.
  - intros [n Hn]. exists (n, c). split; [done|].
    rewrite merge_sort_Permutation. by apply elem_of_map_to_list.
Qed.

(** The walk visits the calls by ascending key. *)
Lemma calls_values_sorted calls :
  ∃ l, calls_values calls = l.*2 ∧ l ≡ₚ map_to_list calls ∧
       StronglySorted id_le l.
Proof.
  exists (merge_sort id_le (map_to_list calls)).
  split; [done|]. split; [apply merge_sort_Permutation|].
  apply StronglySorted_merge_sort.
  - intros x y z. unfold id_le. lia.
  - intros x y. unfold id_le. lia.
Qed.

Lemma slots_registered s n call :
  _calls s !! n = Some call → resolve call ∈ slots s.
Proof.
  intros Hn. unfold slots. apply list_elem_of_fmap. exists call. split; [done|].
  apply calls_values_elem. by exists n.
Qed.


Lemma teardown_begin_run s c :
  _client s = Some c →
  teardown_begin s =
    (Ok (negb (closed c)),
     with_client (Some (mkClient true (send_error c)))
       (with_calls ∅
          (with_futures (cancel_futures (slots s) (futures s))
             (with_trace
                (trace s ++ (FutureCancel <$> slots s)
                   ++ (if closed c then [] else [CloseClient])) s)))).
Proof.
  intros Hc. unfold teardown_begin.
  erewrite bind_run by reflexivity.
  erewrite bind_run by apply cancel_all_run.
  erewrite bind_run by reflexivity.
  unfold client_closed, transport_sets_closed. unfold_M. state_simpl.
  rewrite Hc. fold (slots s).
  destruct c as [cl err]. cbn [closed send_error].
  destruct cl; cbn [negb]; state_simpl; rewrite <- ?app_assoc, ?app_nil_r.
  - f_equal. destruct s; cbn in *. by subst.
  - rewrite Hc. reflexivity.
Qed.

Lemma teardown_no_client s :
  _client s = None →
  teardown s =
    (Raise AttributeError,
     with_calls ∅
       (with_futures (cancel_futures (slots s) (futures s))
          (with_trace (trace s ++ (FutureCancel <$> slots s)) s))).
Proof.
  intros Hc. unfold teardown, teardown_begin.
  unfold mbind at 1, M_bind at 1.
  erewrite bind_run by reflexivity.
  erewrite bind_run by apply cancel_all_run.
  erewrite bind_run by reflexivity.
  unfold client_closed. unfold_M. state_simpl. by rewrite Hc.
Qed.

Lemma teardown_run s c :
  _client s = Some c →
  teardown s =
    (Ok tt,
     with_client None
       (with_calls ∅
          (with_futures (cancel_futures (slots s) (futures s))
             (with_trace
                (trace s ++ (FutureCancel <$> slots s)
                   ++ (if closed c then [] else [CloseClient])
                   ++ [OnNotification [NOTIFY_WS_CLOSED]]) s)))).
Proof.
  intros Hc. unfold teardown.
  erewrite bind_run by (apply teardown_begin_run; exact Hc).
  unfold teardown_end. unfold_M. state_simpl.
  destruct (closed c); state_simpl; rewrite <- !app_assoc; done.
Qed.

(** One turn of the loop. *)
Lemma rx_loop_step msg flag rest s c :
  _client s = Some c →
  let s1 := with_client (Some (mkClient flag (send_error c))) s in
  rx_loop ((msg, flag) :: rest) s =
    if closed c then (Ok true, s)
    else match _receive_json_or_raise msg with
         | Raise ConnectionClosed => (Ok true, s1)
         | Raise e => (Raise e, s1)
         | Ok frame =>
             if flag then rx_loop rest s1
             else (_handle_frame frame;; rx_loop rest) s1
         end.
Proof.
  intros Hc. cbv zeta.
  change (rx_loop ((msg, flag) :: rest)) with
    (is_closed ← client_closed;
     if negb is_closed then
       transport_sets_closed flag;;
       match _receive_json_or_raise msg with
       | Raise ConnectionClosed => mret true
       | Raise e => raise e
       | Ok frame =>
           is_closed ← client_closed;
           (if negb is_closed then _handle_frame frame else skip);;
           rx_loop rest
       end
     else mret true).
  assert (Hcl : client_closed s = (Ok (closed c), s)).
  { unfold client_closed. unfold_M. by rewrite Hc. }
  erewrite bind_run by exact Hcl.
  destruct (closed c); cbn [negb]; [done|].
  assert (Hset : transport_sets_closed flag s =
                 (Ok tt, with_client (Some (mkClient flag (send_error c))) s)).
  { unfold transport_sets_closed, modify. by rewrite Hc. }
  erewrite bind_run by exact Hset.
  destruct (_receive_json_or_raise msg) as [frame|e]; [|by destruct e].
  erewrite bind_run by (unfold client_closed; unfold_M; reflexivity).
  state_simpl. destruct flag; cbn [negb]; [|done].
  by erewrite bind_run by reflexivity.
Qed.

Lemma rx_loop_ok incoming s :
  registry_ok s → registry_ok (rx_loop incoming s).2.
Proof.
  revert s. induction incoming as [|[msg flag] rest IH]; intros s Hok.
  - simpl. unfold client_closed. unfold_M.
    destruct (_client s) as [c|]; [|done]. by destruct (closed c).
  - destruct (_client s) as [c|] eqn:Hc.
    2: { simpl. unfold client_closed. unfold_M. by rewrite Hc. }
    rewrite (rx_loop_step msg flag rest s c Hc).
    destruct (closed c); [done|].
    assert (registry_ok (with_client (Some (mkClient flag (send_error c))) s))
      as Hok1 by by apply registry_ok_with_client.
    destruct (_receive_json_or_raise msg) as [frame|e]; [|by destruct e].
    destruct flag; [by apply IH|].
    unfold mbind, M_bind.
    pose proof (handle_frame_ok frame _ Hok1) as Hok2.
    destruct (_handle_frame frame _) as [[[]|e] s2]; [by apply IH|done].
Qed.



(** At teardown the sink's call has one argument, the notification name;
    no [params] argument is passed. *)
Lemma teardown_sink_single_argument :
  let s' := (_rx_msgs [(CLOSED, true)] demo_two_calls).2 in
  last (trace s') = Some (OnNotification [NOTIFY_WS_CLOSED]) ∧
  Forall (λ e, e ≠ OnNotification [NOTIFY_WS_CLOSED; PyNone]) (trace s').
Proof.
  cbv zeta. split; [vm_compute; reflexivity|].
  vm_compute. repeat constructor; discriminate.
Qed.

(** The calls are cancelled in the order in which they were made. *)
Example teardown_order :
  trace (_rx_msgs [(CLOSED, false)] demo_two_calls).2 =
    trace demo_two_calls
      ++ [FutureCancel 0%nat; FutureCancel 1%nat; CloseClient;
          OnNotification [NOTIFY_WS_CLOSED]].
Proof. vm_compute. reflexivity. Qed.

Lemma rx_msgs_one msg flag rest s c :
  _client s = Some c → closed c = false →
  let s1 := with_client (Some (mkClient flag (send_error c))) s in
  _rx_msgs ((msg, flag) :: rest) s =
    match _receive_json_or_raise msg with
    | Raise ConnectionClosed => (teardown;; mret true) s1
    | Raise e => (Raise e, s1)
    | Ok frame =>
        (left ← (if flag then rx_loop rest
                 else _handle_frame frame;; rx_loop rest);
         match left with
         | true => teardown;; mret true
         | false => mret false
         end) s1
    end.
Proof.
  intros Hc Hopen. cbv zeta. unfold _rx_msgs.
  erewrite bind_run by reflexivity. rewrite Hc.
  unfold mbind at 1, M_bind at 1.
  rewrite (rx_loop_step msg flag rest s c Hc), Hopen.
  destruct (_receive_json_or_raise msg) as [frame|e]; [by destruct flag|].
  by destruct e.
Qed.

(** C4. The teardown is the code after the loop, and only a close ends the
    loop without an exception. From one and the same state with an open
    connection: a close message makes [_rx_msgs] return after the teardown
    (the future of every registered call cancelled, the registry empty,
    the handle cleared, the sink told last), whereas a message on which
    [_receive_json_or_raise] raises anything else (an [ERROR] message, a
    message that is not text, text that is not JSON) ends [_rx_msgs] with
    that exception before the teardown: the calls stay registered, no
    future is touched, the handle stays set and nothing is logged and no
    sink is called. *)
Theorem teardown_skipped_on_error msg e flag rest s c :
  registry_ok s → _client s = Some c → closed c = false →
  _receive_json_or_raise msg = Raise e → e ≠ ConnectionClosed →
  (∃ s', _rx_msgs ((CLOSED, flag) :: rest) s = (Ok true, s') ∧
     _calls s' = ∅ ∧ _client s' = None ∧
     (∀ n call, _calls s !! n = Some call →
        futures s' !! resolve call = Some Cancelled) ∧
     last (trace s') = Some (OnNotification [NOTIFY_WS_CLOSED])) ∧
  (∃ s', _rx_msgs ((msg, flag) :: rest) s = (Raise e, s') ∧
     _calls s' = _calls s ∧ futures s' = futures s ∧
     _client s' = Some (mkClient flag (send_error c)) ∧
     trace s' = trace s).
Proof.
  intros Hok Hc Hopen Hmsg He. split.
  - rewrite (rx_msgs_one CLOSED flag rest s c Hc Hopen).
    cbn [_receive_json_or_raise].
    set (s1 := with_client (Some (mkClient flag (send_error c))) s).
    assert (Hok1 : registry_ok s1) by by apply registry_ok_with_client.
    erewrite bind_run by exact (teardown_run s1 _ eq_refl).
    eexists. split; [reflexivity|]. state_simpl.
    split; [done|]. split; [done|]. split.
    + intros n call Hn.
      apply cancel_futures_cancelled; [by eapply (slots_registered s1)|].
      exact (ok_future s Hok n call Hn).
    + by rewrite !app_assoc, last_snoc.
  - rewrite (rx_msgs_one msg flag rest s c Hc Hopen), Hmsg.
    eexists. split; [by destruct e|]. by state_simpl.
Qed.

(** The transport reports an error while the two calls of [demo_two_calls]
    are pending. *)
Lemma teardown_skipped_on_error_witness :
  let r := _rx_msgs [(ERROR, true)] demo_two_calls in
  r.1 = Raise ConnectionFailed ∧
  _calls r.2 = _calls demo_two_calls ∧ size (_calls r.2) = 2%nat ∧
  futures r.2 = futures demo_two_calls ∧
  is_Some (_client r.2) ∧
  trace r.2 = trace demo_two_calls.
Proof.
  cbv zeta.
  assert (Hc : _client demo_two_calls = Some (mkClient false None))
    by (vm_compute; reflexivity).
  destruct (teardown_skipped_on_error ERROR ConnectionFailed true []
              demo_two_calls _ demo_two_calls_ok Hc eq_refl eq_refl
              ltac:(discriminate))
    as [_ (s' & Hrun & Hcalls & Hfut & Hcl & Htr)].
  rewrite Hrun. cbn [fst snd]. rewrite Hcalls, Hfut, Hcl, Htr.
  split; [done|]. split; [done|]. split; [vm_compute; reflexivity|].
  split; [done|]. split; [by eexists|done].
Defined.

(* ===================================================================== *)
(** ** The digest of the handshake *)
(* ===================================================================== *)

(** Text that is ASCII is its own UTF-8 encoding. *)
Definition ascii_text (s : list Z) : Prop := Forall (λ c, 0 ≤ c < 128) s.

Lemma encode_ascii s : ascii_text s → Utf8.encode s = Some s.
Proof.
  induction 1 as [|c s [Hlo Hhi] _ IH]; [done|]. simpl. rewrite IH.
  unfold Utf8.encode_char.
  destruct (Z.ltb_spec c 0); [lia|]. destruct (Z.ltb_spec c 128); [done|lia].
Qed.

Lemma encode_app a b :
  Utf8.encode (a ++ b) =
    match Utf8.encode a, Utf8.encode b with
    | Some x, Some y => Some (x ++ y)
    | _, _ => None
    end.
Proof.
  induction a as [|c a IH]; simpl.
  - by destruct (Utf8.encode b).
  - rewrite IH. destruct (Utf8.encode_char c); [|done].
    destruct (Utf8.encode a); [|done].
    destruct (Utf8.encode b); [|done]. by rewrite app_assoc.
Qed.

Lemma encode_app_Some a b x y :
  Utf8.encode a = Some x → Utf8.encode b = Some y →
  Utf8.encode (a ++ b) = Some (x ++ y).
Proof. intros Ha Hb. by rewrite encode_app, Ha, Hb. Qed.

(** A digit of [0123456789abcdef]. *)
Definition lower_hex (c : Z) : Prop := 48 ≤ c ≤ 57 ∨ 97 ≤ c ≤ 102.

Lemma hex_digit_lower x : lower_hex (Sha256.hex_digit (Z.land x 15)).
Proof.
  assert (0 ≤ Z.land x 15 < 16) as Hr.
  { change 15 with (Z.ones 4). rewrite Z.land_ones by lia.
    apply Z.mod_pos_bound. lia. }
  unfold Sha256.hex_digit, lower_hex.
  destruct (Z.ltb_spec (Z.land x 15) 10); lia.
Qed.

Lemma hex_word_lower x :
  Forall lower_hex (Sha256.hex_word x) ∧ length (Sha256.hex_word x) = 8%nat.
Proof.
  unfold Sha256.hex_word. split; [|done].
  cbn [map]. repeat (constructor; [apply hex_digit_lower|]). constructor.
Qed.

(** [hexdigest()] is 64 lowercase hexadecimal digits. *)
Lemma hexdigest_lower msg :
  Forall lower_hex (Sha256.hexdigest msg) ∧
  length (Sha256.hexdigest msg) = 64%nat.
Proof.
  unfold Sha256.hexdigest, Sha256.digest_words.
  destruct (Sha256.blocks _ _ _) as [a b c d e f g h].
  cbn [map concat]. rewrite app_nil_r. split.
  - repeat (apply Forall_app; split); apply hex_word_lower.
  - rewrite !length_app.
    by rewrite !(proj2 (hex_word_lower _)).
Qed.

Lemma lower_hex_ascii s : Forall lower_hex s → ascii_text s.
Proof. intros H. eapply Forall_impl; [exact H|]. unfold lower_hex. lia. Qed.

Lemma encode_hexdigest msg :
  Utf8.encode (Sha256.hexdigest msg) = Some (Sha256.hexdigest msg).
Proof. apply encode_ascii, lower_hex_ascii, hexdigest_lower. Qed.

(** [str()] of an [int] is ASCII: digits, and a sign. *)
Lemma uint_ascii d : ascii_text (lit (NilEmpty.string_of_uint d)).
Proof.
  induction d; cbn; constructor; try done; lia.
Qed.

Lemma decimal_ascii z : ascii_text (decimal z).
Proof.
  unfold decimal, NilZero.string_of_int, NilZero.string_of_uint.
  destruct (Z.to_int z) as [d|d].
  - destruct d; try apply uint_ascii. cbn. constructor; [lia|constructor].
  - change (ascii_text (45 :: lit match d with
                                  | Decimal.Nil => "0"%string
                                  | _ => NilEmpty.string_of_uint d
                                  end)).
    constructor; [lia|].
    destruct d; try apply uint_ascii. cbn. constructor; [lia|constructor].
Qed.

Lemma hex_hash_encoded text bytes :
  Utf8.encode text = Some bytes → hex_hash text = Ok (Sha256.hexdigest bytes).
Proof. intros H. unfold hex_hash. by rewrite H. Qed.

Lemma dict_get_set_ne {A} (d : list (list Z * A)) k k' v :
  k ≠ k' → dict_get (dict_set d k v) k' = dict_get d k'.
Proof.
  intros Hne. induction d as [|[k0 v0] d IH]; simpl.
  - by rewrite decide_False.
  - destruct (decide (k0 = k)) as [->|H0]; simpl.
    + by rewrite !decide_False.
    + by rewrite IH.
Qed.

(** 64 lowercase hexadecimal digits. *)
Definition sha256_hex (s : list Z) : Prop :=
  Forall lower_hex s ∧ length s = 64%nat.

(** C3. For a secret, a challenge with [realm] and [nonce] (and [nc], taken
    as 1 when the challenge has none) and a client nonce, the handshake
    computes [ha1] as the SHA-256 of the UTF-8 bytes of
    ["admin:" + realm + ":" + secret], [ha2] as that of
    ["dummy_method:dummy_uri"], and the response as that of
    [ha1 + ":" + nonce + ":" + nc + ":" + cnonce + ":auth:" + ha2], each
    rendered as 64 lowercase hexadecimal digits; the credentials it installs
    are determined by these inputs. *)
Theorem handshake_digest repr password d realm nonce cnonce
    bytes_password bytes_realm bytes_nonce bytes_nc :
  dict_get d (lit "realm") = Some realm →
  dict_get d (lit "nonce") = Some nonce →
  let nc := default (PyInt 1) (dict_get d (lit "nc")) in
  Utf8.encode password = Some bytes_password →
  Utf8.encode (format repr realm) = Some bytes_realm →
  Utf8.encode (format repr nonce) = Some bytes_nonce →
  Utf8.encode (format repr nc) = Some bytes_nc →
  let ha1 := Sha256.hexdigest
               (lit "admin:" ++ bytes_realm ++ lit ":" ++ bytes_password) in
  let ha2 := Sha256.hexdigest (lit "dummy_method:dummy_uri") in
  let response :=
    Sha256.hexdigest
      (ha1 ++ lit ":" ++ bytes_nonce ++ lit ":" ++ bytes_nc ++ lit ":"
           ++ decimal cnonce ++ lit ":auth:" ++ ha2) in
  connect_auth repr password (PyDict d) cnonce =
    Ok (PyDict [(lit "realm", realm);
                (lit "username", PyStr (lit "admin"));
                (lit "nonce", nonce);
                (lit "cnonce", PyInt cnonce);
                (lit "response", PyStr response);
                (lit "algorithm", PyStr (lit "SHA-256"))]) ∧
  sha256_hex ha1 ∧ sha256_hex ha2 ∧ sha256_hex response.
Proof.
  intros Hrealm Hnonce nc Hs Hr Hn Hnc ha1 ha2 response.
  split; [|split; [|split]; apply hexdigest_lower].
  assert (Hcolon : Utf8.encode (lit ":") = Some (lit ":")) by reflexivity.
  assert (Hha1 : hex_hash (lit "admin" ++ lit ":" ++ format repr realm
                             ++ lit ":" ++ password) = Ok ha1).
  { apply hex_hash_encoded.
    change (lit "admin:" ++ bytes_realm ++ lit ":" ++ bytes_password)
      with (lit "admin" ++ lit ":" ++ bytes_realm ++ lit ":" ++ bytes_password).
    apply encode_app_Some; [reflexivity|].
    apply encode_app_Some; [exact Hcolon|].
    apply encode_app_Some; [exact Hr|].
    apply encode_app_Some; [exact Hcolon|exact Hs]. }
  assert (Hha2 : hex_hash (lit "dummy_method:dummy_uri") = Ok ha2).
  { apply hex_hash_encoded. reflexivity. }
  assert (Henc1 : Utf8.encode ha1 = Some ha1) by apply encode_hexdigest.
  assert (Henc2 : Utf8.encode ha2 = Some ha2) by apply encode_hexdigest.
  clearbody ha1 ha2.
  assert (Hresp : hex_hash (ha1 ++ lit ":" ++ format repr nonce ++ lit ":"
                              ++ format repr nc ++ lit ":" ++ decimal cnonce
                              ++ lit ":auth:" ++ ha2) = Ok response).
  { apply hex_hash_encoded.
    apply encode_app_Some; [exact Henc1|].
    apply encode_app_Some; [exact Hcolon|].
    apply encode_app_Some; [exact Hn|].
    apply encode_app_Some; [exact Hcolon|].
    apply encode_app_Some; [exact Hnc|].
    apply encode_app_Some; [exact Hcolon|].
    apply encode_app_Some; [apply encode_ascii, decimal_ascii|].
    apply encode_app_Some; [reflexivity|exact Henc2]. }
  clearbody response.
  set (d' := if dict_in d (lit "nc") then d
             else dict_set d (lit "nc") (PyInt 1)).
  assert (Hd' : dict_get d' (lit "realm") = Some realm ∧
                dict_get d' (lit "nonce") = Some nonce ∧
                dict_get d' (lit "nc") = Some nc).
  { subst d' nc. destruct (dict_in d (lit "nc")) eqn:Hin.
    - apply dict_in_get in Hin as [v Hv]. rewrite Hv. auto.
    - apply dict_in_false in Hin. rewrite Hin.
      rewrite (dict_get_set_ne d (lit "nc") (lit "realm"))
        by (intros Hk; discriminate Hk).
      rewrite (dict_get_set_ne d (lit "nc") (lit "nonce"))
        by (intros Hk; discriminate Hk).
      rewrite dict_get_set_eq. auto. }
  destruct Hd' as (Hrealm' & Hnonce' & Hnc').
  assert (Hif : (if dict_in d (lit "nc") then PyDict d
                 else PyDict (dict_set d (lit "nc") (PyInt 1))) = PyDict d').
  { subst d'. by destruct (dict_in d (lit "nc")). }
  clearbody d'.
  unfold connect_auth, subscript.
  rewrite Hrealm. cbn [mbind result_bind]. rewrite Hha1. cbn [mbind result_bind].
  rewrite Hha2. cbn [mbind result_bind].
  rewrite Hif. rewrite Hnonce', Hnc'. cbn [mbind result_bind].
  rewrite Hresp. cbn [mbind result_bind]. rewrite Hrealm'.
  reflexivity.
Qed.

(** The challenge [{"realm": "r", "nonce": "n"}], the secret ["s"] and the
    client nonce 42. *)
Definition demo_challenge : list (list Z * value) :=
  [(lit "realm", PyStr (lit "r")); (lit "nonce", PyStr (lit "n"))].

Lemma handshake_digest_witness :
  connect_auth (λ _, []) (lit "s") (PyDict demo_challenge) 42 =
    Ok (PyDict
          [(lit "realm", PyStr (lit "r"));
           (lit "username", PyStr (lit "admin"));
           (lit "nonce", PyStr (lit "n"));
           (lit "cnonce", PyInt 42);
           (lit "response",
            PyStr (lit "71e14de19e9e5378d0afdd06fe747a64d10e3ac1acc4dea45f831d1ce4012cd2"));
           (lit "algorithm", PyStr (lit "SHA-256"))]).
Proof.
  refine (eq_trans
            (proj1 (handshake_digest (λ _, []) (lit "s") demo_challenge
                      (PyStr (lit "r")) (PyStr (lit "n")) 42
                      (lit "s") (lit "r") (lit "n") (lit "1")
                      eq_refl eq_refl eq_refl eq_refl eq_refl eq_refl)) _).
  vm_compute. reflexivity.
Defined.

(* ===================================================================== *)
(** ** When handling a frame raises *)
(* ===================================================================== *)

(** A value that cannot be a [dict] key. *)
Definition unhashable (v : value) : bool :=
  match v with
  | PyList _ | PyDict _ => true
  | _ => false
  end.

Lemma calls_key_unhashable v :
  match calls_key v with
  | Ok _ => unhashable v = false
  | Raise e => unhashable v = true ∧ e = TypeError
  end.
Proof. by destruct v. Qed.

(** Under the invariant of the registry [dispatch] raises only on an
    unhashable [id] in the place of a response. *)
Lemma dispatch_raises frame s :
  registry_ok s →
  (dispatch frame s).1 =
    if negb (truthy (get frame (lit "method")))
       && truthy (get frame (lit "id"))
       && unhashable (get frame (lit "id"))
    then Raise TypeError else Ok tt.
Proof.
  intros Hok. unfold dispatch.
  destruct (truthy (get frame (lit "method"))); cbn [negb andb].
  { by destruct (truthy _). }
  destruct (truthy (get frame (lit "id"))); cbn [andb]; [|done].
  pose proof (calls_key_unhashable (get frame (lit "id"))) as Hkey.
  unfold_M. destruct (calls_key _) as [[k|]|e]; simpl.
  - rewrite Hkey.
    destruct (_calls s !! k) as [call|] eqn:Hc; simpl; [|done].
    unfold Future_cancelled, Future_set_result. unfold_M. state_simpl.
    destruct (ok_future s Hok _ _ Hc) as [Hf|Hf]; rewrite Hf; cbn [negb];
      state_simpl; rewrite ?Hf; done.
  - by rewrite Hkey.
  - destruct Hkey as [-> ->]. done.
Qed.

Lemma registry_ok_routed frame s :
  registry_ok s →
  registry_ok (with_trace (trace s ++ route_warning frame (_route s))
                 (with_route (route_after frame (_route s)) s)).
Proof. intros [? ? ? ?]. split; auto. Qed.

(** X1. In a state that satisfies the invariant of the registry,
    [_handle_frame] raises in two cases only: [AttributeError] for a frame
    that is not a [dict], and [TypeError] for a frame without a truthy
    [method] whose [id] is a non-empty [list] or [dict]. In particular
    [set_result] is never called on a future that is done. *)
Theorem handle_frame_raises frame s :
  registry_ok s →
  (_handle_frame frame s).1 =
    match frame with
    | PyDict d =>
        if negb (truthy (get d (lit "method")))
           && truthy (get d (lit "id"))
           && unhashable (get d (lit "id"))
        then Raise TypeError else Ok tt
    | _ => Raise AttributeError
    end.
Proof.
  intros Hok. destruct frame as [| | | | |d]; try reflexivity.
  rewrite handle_frame_run. apply dispatch_raises.
  by apply registry_ok_routed.
Qed.

Lemma handle_frame_raises_witness :
  (_handle_frame (PyDict [(lit "id", PyList [PyInt 1])]) demo_two_calls).1
    = Raise TypeError ∧
  (_handle_frame (PyList [PyInt 1]) demo_two_calls).1 = Raise AttributeError.
Proof.
  split.
  - exact (handle_frame_raises (PyDict [(lit "id", PyList [PyInt 1])])
             demo_two_calls demo_two_calls_ok).
  - exact (handle_frame_raises (PyList [PyInt 1])
             demo_two_calls demo_two_calls_ok).
Defined.

(** Only warnings. *)
Definition only_warnings (t : list event) : Prop :=
  Forall (λ e, ∃ fmt args, e = LogWarning fmt args) t.

Lemma route_warning_only frame r : only_warnings (route_warning frame r).
Proof.
  unfold route_warning, only_warnings. destruct (route_dst r); [|constructor].
  destruct (_ && _); repeat constructor. eauto.
Qed.

(** When [dispatch] raises it has changed nothing. *)
Lemma dispatch_raised frame s e s1 :
  registry_ok s → dispatch frame s = (Raise e, s1) → s1 = s.
Proof.
  intros Hok. unfold dispatch. unfold_M.
  destruct (truthy (get frame (lit "method"))).
  { destruct (truthy _); cbv beta; intros [=]. }
  destruct (truthy (get frame (lit "id"))); [|cbv beta; intros [=]].
  destruct (calls_key _) as [[k|]|e0]; simpl.
  - destruct (_calls s !! k) as [call|] eqn:Hc; simpl; [|intros [=]].
    unfold Future_cancelled, Future_set_result. unfold_M. state_simpl.
    destruct (ok_future s Hok _ _ Hc) as [Hf|Hf]; rewrite Hf; cbn [negb];
      state_simpl; rewrite ?Hf; intros [=].
  - intros [=].
  - by intros [= <- <-].
Qed.

(** When [_handle_frame] raises, the registry and the futures are as they
    were and nothing was done but the route bookkeeping. *)
Lemma handle_frame_raised frame s e s1 :
  registry_ok s →
  _handle_frame frame s = (Raise e, s1) →
  _calls s1 = _calls s ∧ futures s1 = futures s ∧ _client s1 = _client s ∧
  ∃ t, trace s1 = trace s ++ t ∧ only_warnings t.
Proof.
  intros Hok Hrun. destruct frame as [| | | | |d];
    try (injection Hrun as <- <-; repeat split; auto;
         exists []; rewrite app_nil_r; split; [done|constructor]).
  rewrite handle_frame_run in Hrun.
  apply dispatch_raised in Hrun as ->; [|by apply registry_ok_routed].
  state_simpl. repeat split; auto.
  eexists. split; [reflexivity|]. apply route_warning_only.
Qed.

(** X2. An exception of [_handle_frame] ends [_rx_msgs] with that
    exception and without the teardown: the calls stay registered, their
    futures are not cancelled, the connection handle stays set and the sink
    is not told; whatever was received later is never read. *)
Theorem rx_msgs_handler_exception frame e rest s :
  registry_ok s → is_open s →
  (_handle_frame frame s).1 = Raise e →
  ∃ s1, _rx_msgs ((TEXT (Some frame), false) :: rest) s = (Raise e, s1) ∧
    _calls s1 = _calls s ∧ futures s1 = futures s ∧ _client s1 = _client s ∧
    ∃ t, trace s1 = trace s ++ t ∧ only_warnings t.
Proof.
  intros Hok Hopen He.
  destruct (_handle_frame frame s) as [r s1] eqn:Hrun. simpl in He. subst r.
  exists s1. split; [|by eapply handle_frame_raised].
  destruct Hopen as (c & Hc & Hco). unfold _rx_msgs.
  erewrite bind_run by reflexivity. rewrite Hc.
  assert (Hloop : rx_loop ((TEXT (Some frame), false) :: rest) s = (Raise e, s1)).
  { rewrite rx_loop_frame by (by exists c).
    by erewrite bind_raise by exact Hrun. }
  by erewrite bind_raise by exact Hloop.
Qed.

Lemma rx_msgs_handler_exception_witness :
  ∃ s1,
    _rx_msgs [(TEXT (Some (PyDict [(lit "id", PyDict [(lit "a", PyNone)])])), false);
              (CLOSED, true)] demo_two_calls = (Raise TypeError, s1) ∧
    _calls s1 = _calls demo_two_calls ∧ futures s1 = futures demo_two_calls ∧
    _client s1 = _client demo_two_calls ∧
    ∃ t, trace s1 = trace demo_two_calls ++ t ∧ only_warnings t.
Proof.
  apply (rx_msgs_handler_exception
           (PyDict [(lit "id", PyDict [(lit "a", PyNone)])]) TypeError
           [(CLOSED, true)] demo_two_calls demo_two_calls_ok).
  - eexists. split; vm_compute; reflexivity.
  - vm_compute. reflexivity.
Defined.

(* ===================================================================== *)
(** ** How the receive loop ends *)
(* ===================================================================== *)

Lemma rx_msgs_run incoming s c :
  _client s = Some c →
  _rx_msgs incoming s =
    match rx_loop incoming s with
    | (Ok true, s1) => (teardown;; mret true) s1
    | (Ok false, s1) => (Ok false, s1)
    | (Raise e, s1) => (Raise e, s1)
    end.
Proof.
  intros Hc. unfold _rx_msgs. erewrite bind_run by reflexivity. rewrite Hc.
  unfold mbind at 1, M_bind at 1.
  by destruct (rx_loop incoming s) as [[[|]|e] s1].
Qed.

(** X3. A message that is neither text nor a close ([ERROR], [BINARY],
    [PING], [PONG]) or whose text is not JSON ends [_rx_msgs] with
    [ConnectionFailed] or [InvalidMessage] and without the teardown: apart
    from the transport's own flag the state is as it was, so the calls stay
    registered and pending, the handle stays set and the sink is not
    told. *)
Theorem rx_msgs_bad_message msg flag rest s c e :
  _client s = Some c → closed c = false →
  _receive_json_or_raise msg = Raise e → e ≠ ConnectionClosed →
  (e = ConnectionFailed ∨ e = InvalidMessage) ∧
  _rx_msgs ((msg, flag) :: rest) s =
    (Raise e, with_client (Some (mkClient flag (send_error c))) s).
Proof.
  intros Hc Ho Hmsg Hne. split.
  { destruct msg as [[j|]| | | | | | |]; simpl in Hmsg; try discriminate;
      injection Hmsg as <-; auto; done. }
  rewrite (rx_msgs_run _ s c Hc), (rx_loop_step msg flag rest s c Hc), Ho, Hmsg.
  by destruct e.
Qed.

Lemma rx_msgs_bad_message_witness :
  _rx_msgs [(BINARY, false); (CLOSED, true)] demo_two_calls =
    (Raise InvalidMessage, demo_two_calls).
Proof.
  refine (eq_trans
            (proj2 (rx_msgs_bad_message BINARY false [(CLOSED, true)]
                      demo_two_calls (mkClient false None) InvalidMessage
                      _ eq_refl eq_refl _)) _).
  - vm_compute. reflexivity.
  - discriminate.
  - vm_compute. reflexivity.
Defined.

(** Leaving the loop: what [_rx_msgs] does then is the teardown. *)
Lemma rx_msgs_left incoming s c s1 :
  _client s = Some c → rx_loop incoming s = (Ok true, s1) →
  _rx_msgs incoming s = (teardown;; mret true) s1.
Proof. intros Hc Hloop. by rewrite (rx_msgs_run _ s c Hc), Hloop. Qed.

(** X4. Once the connection is closing nothing more is handled. After a
    close message ([CLOSE], [CLOSING], [CLOSED]), and after any valid frame
    received while the transport's [closed] flag got set, [_rx_msgs] goes
    straight to the teardown: the frame just received is dropped unhandled
    and what follows is never read. *)
Theorem rx_msgs_stops_reading msg flag rest s c :
  _client s = Some c → closed c = false →
  (_receive_json_or_raise msg = Raise ConnectionClosed ∨
   (flag = true ∧ ∃ frame, msg = TEXT (Some frame))) →
  _rx_msgs ((msg, flag) :: rest) s =
    (teardown;; mret true)
      (with_client (Some (mkClient flag (send_error c))) s).
Proof.
  intros Hc Ho Hcase.
  apply (rx_msgs_left _ s c _ Hc).
  rewrite (rx_loop_step msg flag rest s c Hc), Ho.
  destruct Hcase as [->|(-> & frame & ->)]; [done|].
  cbn [_receive_json_or_raise].
  destruct rest as [|[m f] rest'].
  - simpl. unfold client_closed. by unfold_M.
  - by rewrite (rx_loop_step m f rest'
                  (with_client (Some (mkClient true (send_error c))) s)
                  (mkClient true (send_error c)) eq_refl).
Qed.

(** A response for call 1 that arrives as the connection closes: the call
    is cancelled, not resolved. *)
Lemma rx_msgs_stops_reading_witness :
  let r := _rx_msgs [(TEXT (Some (PyDict (demo_result 1 10))), true);
                     (TEXT (Some (PyDict (demo_result 2 20))), false)]
             demo_two_calls in
  r.1 = Ok true ∧ _calls r.2 = ∅ ∧
  Forall (λ f, f = Cancelled) (map_to_list (futures r.2)).*2.
Proof.
  cbv zeta.
  rewrite (rx_msgs_stops_reading
             (TEXT (Some (PyDict (demo_result 1 10)))) true
             [(TEXT (Some (PyDict (demo_result 2 20))), false)]
             demo_two_calls (mkClient false None))
    by (first [vm_compute; reflexivity | right; split; [reflexivity|by eexists]]).
  split; [vm_compute; reflexivity|]. split; [vm_compute; reflexivity|].
  vm_compute. by repeat constructor.
Defined.

(* ===================================================================== *)
(** ** After the teardown, and [disconnect] *)
(* ===================================================================== *)

Lemma rx_msgs_returned incoming s s' :
  registry_ok s → _rx_msgs incoming s = (Ok true, s') →
  ∃ s1 c, rx_loop incoming s = (Ok true, s1) ∧ registry_ok s1 ∧
    _client s1 = Some c ∧ teardown s1 = (Ok tt, s').
Proof.
  intros Hok Hrun.
  destruct (_client s) as [c0|] eqn:Hc0.
  2: { unfold _rx_msgs in Hrun. erewrite bind_run in Hrun by reflexivity.
       by rewrite Hc0 in Hrun. }
  rewrite (rx_msgs_run _ s c0 Hc0) in Hrun.
  pose proof (rx_loop_ok incoming s Hok) as Hok1.
  destruct (rx_loop incoming s) as [[[|]|e] s1] eqn:Hloop; try discriminate.
  simpl in Hok1. exists s1.
  destruct (_client s1) as [c|] eqn:Hc.
  - exists c. erewrite bind_run in Hrun by exact (teardown_run s1 c Hc).
    injection Hrun as <-.
    split; [reflexivity|]. split; [exact Hok1|]. split; [reflexivity|].
    apply (teardown_run s1 c Hc).
  - exfalso. unfold mbind, M_bind in Hrun.
    by rewrite (teardown_no_client s1 Hc) in Hrun.
Qed.

(** X5. Once [_rx_msgs] has returned, the engine is disconnected for good:
    [connected] is false, every [call] fails with
    [RuntimeError("Not connected")] and changes nothing, a rejection task
    that was started but had not run yet fails its assertion and sends
    nothing, and every caller still awaiting a call that was registered
    when the loop was left is woken with [CancelledError] (which, not
    being an [Exception] since Python 3.8, passes the [except Exception]
    clause of [call]). *)
Theorem after_rx_msgs_returned incoming s s' :
  registry_ok s → _rx_msgs incoming s = (Ok true, s') →
  connected s' = false ∧
  (∀ method_ params_,
     call_issue method_ params_ s' = (Raise (RuntimeError "Not connected"), s')) ∧
  (∀ frame_id, _handle_call frame_id s' = (Raise AssertionError, s')) ∧
  ∃ s1, rx_loop incoming s = (Ok true, s1) ∧
    ∀ n call, _calls s1 !! n = Some call →
      call_await call s' = (Raise CancelledError, s').
Proof.
  intros Hok Hrun.
  destruct (rx_msgs_returned incoming s s' Hok Hrun)
    as (s1 & c & Hloop & Hok1 & Hc & Htear).
  rewrite (teardown_run s1 c Hc) in Htear. injection Htear as <-.
  split; [reflexivity|]. split; [reflexivity|]. split; [reflexivity|].
  exists s1. split; [done|]. intros n call Hn.
  unfold call_await. unfold_M. state_simpl.
  rewrite cancel_futures_cancelled; [done|by eapply slots_registered|].
  exact (ok_future s1 Hok1 n call Hn).
Qed.

Lemma after_rx_msgs_returned_witness :
  let s' := (_rx_msgs [(CLOSED, true)] demo_two_calls).2 in
  connected s' = false ∧
  call_issue (lit "Sys.GetStatus") None s' =
    (Raise (RuntimeError "Not connected"), s').
Proof.
  cbv zeta.
  assert (Hrun : _rx_msgs [(CLOSED, true)] demo_two_calls =
                 (Ok true, (_rx_msgs [(CLOSED, true)] demo_two_calls).2))
    by (vm_compute; reflexivity).
  destruct (after_rx_msgs_returned _ _ _ demo_two_calls_ok Hrun)
    as (Hconn & Hcall & _).
  split; [exact Hconn|apply Hcall].
Defined.

(** [WsRPC.disconnect]. The task handle [_rx_task], stored by [connect] and
    cleared here but never read, is not part of the state. Closing sets the
    transport's [closed] flag, as in the teardown. *)
Definition disconnect : M unit :=
  c ← gets _client;
  match c with
  | None => skip
  | Some _ => emit CloseClient;; transport_sets_closed true
  end.


(* ===================================================================== *)
(** ** A call from issue to outcome *)
(* ===================================================================== *)

(** X7. Ids and futures are fresh. On a connection handle that is set and
    a registry satisfying its invariant, [call] takes the id one above the
    counter; no call was registered under it, so none is replaced and the
    registry grows by one; every call registered before has a smaller id
    and another future; the new future was not in use and is pending, so
    the caller is suspended. *)
Theorem call_issue_fresh method_ params_ s c :
  registry_ok s → _client s = Some c →
  ∃ call s',
    (call_issue method_ params_ s).2 = s' ∧
    call_id call = _call_id s + 1 ∧ _call_id s' = _call_id s + 1 ∧
    _calls s !! call_id call = None ∧
    _calls s' = <[call_id call := call]> (_calls s) ∧
    size (_calls s') = S (size (_calls s)) ∧
    (∀ n c0, _calls s !! n = Some c0 →
       _calls s' !! n = Some c0 ∧ n < call_id call ∧
       resolve c0 ≠ resolve call) ∧
    futures s !! resolve call = None ∧
    futures s' !! resolve call = Some Pending ∧
    call_await call s' = (Ok None, s').
Proof.
  intros Hok Hc.
  destruct (call_issue_shape method_ params_ s c Hc)
    as (call & s' & Hs' & Hcalls & Hid & Hres & Hfut & Hcid & _).
  assert (Hnew : _calls s !! (_call_id s + 1) = None).
  { destruct (_calls s !! _) as [c0|] eqn:Hc0; [|done].
    apply (ok_id s Hok) in Hc0. lia. }
  assert (Hfresh : futures s !! resolve call = None).
  { rewrite Hres. apply not_elem_of_dom, is_fresh. }
  exists call, s'. rewrite Hid, Hcalls.
  split; [done|]. split; [done|]. split; [done|]. split; [done|].
  split; [done|]. split; [by apply map_size_insert_None|].
  split; [|split; [done|]].
  - intros n c0 Hn. pose proof (ok_id s Hok n c0 Hn) as [_ Hle].
    split; [|split; [lia|]].
    + rewrite lookup_insert_ne; [done|lia].
    + intros Heq. destruct (ok_future s Hok n c0 Hn) as [Hf|Hf];
        rewrite Heq, Hfresh in Hf; discriminate Hf.
  - assert (Hp : futures s' !! resolve call = Some Pending)
      by (by rewrite Hfut, lookup_insert_eq).
    split; [done|]. unfold call_await. unfold_M. by rewrite Hp.
Qed.

Lemma call_issue_fresh_witness :
  ∃ call s',
    (call_issue (lit "C") None demo_two_calls).2 = s' ∧
    call_id call = 3 ∧ _calls demo_two_calls !! 3 = None ∧
    size (_calls s') = 3%nat.
Proof.
  destruct (call_issue_fresh (lit "C") None demo_two_calls
              (mkClient false None) demo_two_calls_ok)
    as (call & s' & Hs' & Hid & _ & Hnone & _ & Hsize & _).
  { vm_compute. reflexivity. }
  assert (Hthree : _call_id demo_two_calls + 1 = 3) by (vm_compute; reflexivity).
  assert (Htwo : size (_calls demo_two_calls) = 2%nat) by (vm_compute; reflexivity).
  rewrite Hthree in Hid. rewrite Hid in Hnone. rewrite Htwo in Hsize.
  exists call, s'. split; [exact Hs'|]. split; [exact Hid|].
  split; [exact Hnone|exact Hsize].
Defined.

(** X8. When the transport's [send_json] raises, [call] ends with that
    exception, but the id is used up and the call stays in the registry
    with a pending future that no caller awaits. *)
Theorem call_send_failure method_ params_ s c e :
  _client s = Some c → send_error c = Some e →
  ∃ call s',
    call_issue method_ params_ s = (Raise e, s') ∧
    _call_id s' = _call_id s + 1 ∧
    _calls s' !! (_call_id s + 1) = Some call ∧
    futures s' !! resolve call = Some Pending.
Proof.
  intros Hc He.
  pose proof (call_issue_run method_ params_ s c Hc) as Hrun.
  cbv zeta in Hrun. destruct (params_built s params_) as [p ds].
  destruct Hrun as (frame & _ & ->). rewrite He.
  eexists _, _. split; [reflexivity|]. state_simpl.
  split; [reflexivity|]. split; [apply lookup_insert_eq|].
  state_simpl. apply lookup_insert_eq.
Qed.

Lemma call_send_failure_witness :
  ∃ call s',
    call_issue (lit "Sys.GetStatus") None demo_closed =
      (Raise (TransportError "ConnectionResetError"), s') ∧
    _call_id s' = 1 ∧ _calls s' !! 1 = Some call ∧
    futures s' !! resolve call = Some Pending.
Proof.
  exact (call_send_failure (lit "Sys.GetStatus") None demo_closed _ _
           eq_refl eq_refl).
Defined.

(** X9. A call and its response. After a call was issued and sent, a
    response frame bearing its id makes the registry what it was before
    the call, and wakes the caller with what the frame holds: the [result]
    if there is one, else [JSONRPCError] for an [error] with [code] and
    [message]. *)
Theorem call_round_trip method_ params_ s c call s1 frame :
  registry_ok s → _client s = Some c →
  call_issue method_ params_ s = (Ok call, s1) →
  response_for (call_id call) frame →
  ∃ s2,
    _handle_frame (PyDict frame) s1 = (Ok tt, s2) ∧
    _calls s2 = _calls s ∧
    call_await call s2 =
      (match call_result frame with
       | Ok r => Ok (Some r)
       | Raise e => Raise e
       end, s2) ∧
    (∀ r, dict_get frame (lit "result") = Some r →
          call_await call s2 = (Ok (Some r), s2)) ∧
    (∀ err code msg,
       dict_get frame (lit "result") = None →
       dict_get frame (lit "error") = Some (PyDict err) →
       dict_get err (lit "code") = Some code →
       dict_get err (lit "message") = Some msg →
       call_await call s2 = (Raise (JSONRPCError code msg), s2)).
Proof.
  intros Hok Hc Hrun Hresp.
  destruct (call_issue_shape method_ params_ s c Hc)
    as (call' & s' & Hs' & Hcalls & Hid & Hres & Hfut & _).
  rewrite Hrun in Hs'. simpl in Hs'. subst s'.
  assert (Hnone : _calls s !! call_id call' = None).
  { rewrite Hid. destruct (_calls s !! _) as [c0|] eqn:Hc0; [|done].
    apply (ok_id s Hok) in Hc0. lia. }
  assert (Hpend : futures s1 !! resolve call' = Some Pending)
    by (by rewrite Hfut, lookup_insert_eq).
  rewrite <- Hid in Hcalls.
  pose proof (call_issue_ok method_ params_ s Hok) as Hok1.
  rewrite Hrun in Hok1. simpl in Hok1.
  assert (call' = call) as ->.
  { pose proof (call_issue_run method_ params_ s c Hc) as Hr.
    cbv zeta in Hr. destruct (params_built s params_) as [p ds].
    destruct Hr as (fr & _ & Hr). rewrite Hrun in Hr.
    destruct (send_error c); [discriminate|].
    injection Hr as Hcall Hs1. subst s1. state_simpl.
    apply (f_equal (λ m, m !! (_call_id s + 1))) in Hcalls.
    rewrite Hid in Hcalls. rewrite !lookup_insert_eq in Hcalls. congruence. }
  assert (Hreg : _calls s1 !! call_id call = Some call)
    by (by rewrite Hcalls, lookup_insert_eq).
  destruct (handle_response s1 (call_id call) frame call Hok1 Hresp Hreg Hpend)
    as (s2 & Hframe & Hcalls2 & Hfut2 & _).
  exists s2. split; [done|].
  assert (Hawait : call_await call s2 =
            (match call_result frame with
             | Ok r => Ok (Some r) | Raise e => Raise e end, s2)).
  { apply call_await_finished. by rewrite Hfut2, lookup_insert_eq. }
  split; [by rewrite Hcalls2, Hcalls, delete_insert_id|].
  split; [done|]. rewrite Hawait.
  pose proof (call_result_cases frame) as Hcases. split.
  - intros r Hr. rewrite Hr in Hcases. by rewrite Hcases.
  - intros err code msg Hr He Hcode Hmsg.
    rewrite Hr, He, Hcode, Hmsg in Hcases. by rewrite Hcases.
Qed.

Lemma call_round_trip_witness :
  ∃ call s1 s2,
    call_issue (lit "C") None demo_two_calls = (Ok call, s1) ∧
    _handle_frame (PyDict (demo_result 3 30)) s1 = (Ok tt, s2) ∧
    _calls s2 = _calls demo_two_calls ∧
    call_await call s2 = (Ok (Some (PyInt 30)), s2).
Proof.
  destruct (call_issue (lit "C") None demo_two_calls) as [r s1] eqn:Hrun.
  assert (Hr : ∃ call, r = Ok call ∧ call_id call = 3).
  { apply (f_equal fst) in Hrun. cbn [fst] in Hrun. rewrite <- Hrun.
    vm_compute. eexists. split; reflexivity. }
  destruct Hr as (call & -> & Hid).
  destruct (call_round_trip (lit "C") None demo_two_calls
              (mkClient false None) call s1 (demo_result 3 30)
              demo_two_calls_ok)
    as (s2 & Hframe & Hcalls & _ & Hres & _).
  { vm_compute. reflexivity. }
  { exact Hrun. }
  { rewrite Hid. split; reflexivity. }
  exists call, s1, s2. split; [done|]. split; [done|]. split; [done|].
  by apply Hres.
Defined.

(* ===================================================================== *)
(** ** Responses that find no one waiting *)
(* ===================================================================== *)

(** The state after the route bookkeeping for [frame]. *)
Definition routed (frame : list (list Z * value)) (s : WsRPC) : WsRPC :=
  with_trace (trace s ++ route_warning frame (_route s))
    (with_route (route_after frame (_route s)) s).

Lemma dispatch_late s n frame call :
  response_for n frame → n ≠ 0 →
  _calls s !! n = Some call →
  futures s !! resolve call = Some Cancelled →
  dispatch frame s = (Ok tt, with_calls (delete n (_calls s)) s).
Proof.
  intros [Hid Hm] Hn Hc Hf. unfold dispatch. rewrite Hid, Hm. simpl.
  destruct (Z.eqb_spec n 0) as [|_]; [done|]. simpl.
  unfold Future_cancelled. unfold_M. simpl.
  rewrite Hc. simpl. rewrite Hf. reflexivity.
Qed.

(** X10. A response for a call whose wait was cancelled (its caller timed
    out) still takes the call out of the registry, but the frame is dropped:
    [set_result] is not called, the future stays cancelled, nothing is
    raised. *)
Theorem late_response_dropped s n frame call :
  response_for n frame → n ≠ 0 →
  _calls s !! n = Some call →
  futures s !! resolve call = Some Cancelled →
  _handle_frame (PyDict frame) s =
    (Ok tt, with_calls (delete n (_calls s)) (routed frame s)).
Proof.
  intros Hresp Hn Hc Hf. rewrite handle_frame_run. fold (routed frame s).
  by apply (dispatch_late (routed frame s) n frame call).
Qed.

(** Call 2 of [demo_two_calls], its wait cancelled. *)
Definition demo_timed_out : WsRPC :=
  with_futures (<[1%nat := Cancelled]> (futures demo_two_calls)) demo_two_calls.

Lemma late_response_dropped_witness :
  ∃ call,
    _calls demo_timed_out !! 2 = Some call ∧
    _handle_frame (PyDict (demo_result 2 20)) demo_timed_out =
      (Ok tt,
       with_calls (delete 2 (_calls demo_timed_out))
         (routed (demo_result 2 20) demo_timed_out)) ∧
    futures (_handle_frame (PyDict (demo_result 2 20)) demo_timed_out).2
      !! resolve call = Some Cancelled.
Proof.
  eexists. split; [vm_compute; reflexivity|].
  assert (H : _handle_frame (PyDict (demo_result 2 20)) demo_timed_out =
              (Ok tt, with_calls (delete 2 (_calls demo_timed_out))
                        (routed (demo_result 2 20) demo_timed_out))).
  { eapply (late_response_dropped demo_timed_out 2 (demo_result 2 20)).
    - split; reflexivity.
    - discriminate.
    - vm_compute. reflexivity.
    - vm_compute. reflexivity. }
  split; [exact H|]. rewrite H. vm_compute. reflexivity.
Defined.

Lemma dispatch_unknown s frame k :
  truthy (get frame (lit "method")) = false →
  truthy (get frame (lit "id")) = true →
  calls_key (get frame (lit "id")) = Ok k → k ≫= (_calls s !!.) = None →
  dispatch frame s =
    (Ok tt,
     with_trace
       (trace s ++ [LogWarning "Response for an unknown request id: %s"
                      [get frame (lit "id")]]) s).
Proof.
  intros Hm Hid Hk Hnone. unfold dispatch. rewrite Hm, Hid, Hk. unfold_M.
  destruct k as [k|]; simpl in *; [|done]. by rewrite Hnone.
Qed.

(** X11. A response whose [id] is hashable but is not the id of a
    registered call (an unknown number, a string, an id already answered)
    is logged with a warning and changes nothing else. *)
Theorem unknown_response_ignored s frame :
  truthy (get frame (lit "method")) = false →
  truthy (get frame (lit "id")) = true →
  (∃ k, calls_key (get frame (lit "id")) = Ok k ∧ k ≫= (_calls s !!.) = None) →
  _handle_frame (PyDict frame) s =
    (Ok tt,
     with_trace
       (trace (routed frame s)
          ++ [LogWarning "Response for an unknown request id: %s"
                [get frame (lit "id")]])
       (routed frame s)).
Proof.
  intros Hm Hid (k & Hk & Hnone). rewrite handle_frame_run.
  fold (routed frame s). by apply (dispatch_unknown (routed frame s) frame k).
Qed.

Lemma unknown_response_ignored_witness :
  _handle_frame
    (PyDict [(lit "id", PyStr (lit "1")); (lit "result", PyNone)])
    demo_two_calls =
    (Ok tt,
     with_trace
       (trace demo_two_calls
          ++ [LogWarning "Response for an unknown request id: %s"
                [PyStr (lit "1")]])
       demo_two_calls).
Proof.
  refine (eq_trans
            (unknown_response_ignored demo_two_calls
               [(lit "id", PyStr (lit "1")); (lit "result", PyNone)]
               eq_refl eq_refl _) _).
  - exists None. split; reflexivity.
  - vm_compute. reflexivity.
Defined.

(** X12. Only the first response counts. After a response has resolved a
    call, a second response frame with the same id is treated as one for
    an unknown request: a warning is logged, the future keeps the first
    frame and the registry stays as the first response left it. *)
Theorem duplicate_response_ignored s n frame1 frame2 call s1 :
  registry_ok s → response_for n frame1 → response_for n frame2 →
  _calls s !! n = Some call →
  futures s !! resolve call = Some Pending →
  _handle_frame (PyDict frame1) s = (Ok tt, s1) →
  ∃ s2,
    _handle_frame (PyDict frame2) s1 = (Ok tt, s2) ∧
    _calls s2 = _calls s1 ∧ futures s2 = futures s1 ∧
    futures s2 !! resolve call = Some (Finished frame1) ∧
    trace s2 = trace (routed frame2 s1)
                 ++ [LogWarning "Response for an unknown request id: %s"
                       [PyInt n]].
Proof.
  intros Hok Hr1 Hr2 Hc Hf Hrun1.
  destruct (handle_response s n frame1 call Hok Hr1 Hc Hf)
    as (s1' & Hrun1' & Hcalls1 & Hfut1 & _).
  rewrite Hrun1 in Hrun1'. injection Hrun1' as <-.
  assert (Hn : n ≠ 0) by (apply (ok_id s Hok) in Hc; lia).
  destruct Hr2 as [Hid2 Hm2].
  exists (with_trace
            (trace (routed frame2 s1)
               ++ [LogWarning "Response for an unknown request id: %s"
                     [PyInt n]])
            (routed frame2 s1)).
  split.
  - rewrite handle_frame_run. fold (routed frame2 s1). rewrite <- Hid2.
    apply (dispatch_unknown (routed frame2 s1) frame2 (Some n)); [done|..].
    + rewrite Hid2. cbn [truthy]. by destruct (Z.eqb_spec n 0).
    + by rewrite Hid2.
    + change (_calls s1 !! n = None). by rewrite Hcalls1, lookup_delete_eq.
  - split; [reflexivity|]. split; [reflexivity|]. split; [|reflexivity].
    change (futures s1 !! resolve call = Some (Finished frame1)).
    by rewrite Hfut1, lookup_insert_eq.
Qed.

Lemma duplicate_response_ignored_witness :
  ∃ s1 s2 call,
    _handle_frame (PyDict (demo_result 1 10)) demo_two_calls = (Ok tt, s1) ∧
    _handle_frame (PyDict (demo_result 1 11)) s1 = (Ok tt, s2) ∧
    _calls demo_two_calls !! 1 = Some call ∧
    futures s2 !! resolve call = Some (Finished (demo_result 1 10)).
Proof.
  destruct (_handle_frame (PyDict (demo_result 1 10)) demo_two_calls)
    as [r s1] eqn:Hrun.
  assert (r = Ok tt) as ->.
  { apply (f_equal fst) in Hrun. cbn [fst] in Hrun. rewrite <- Hrun.
    vm_compute. reflexivity. }
  assert (Hcall : ∃ call, _calls demo_two_calls !! 1 = Some call ∧
                          futures demo_two_calls !! resolve call = Some Pending).
  { vm_compute. eexists. split; reflexivity. }
  destruct Hcall as (call & Hc & Hf).
  destruct (duplicate_response_ignored demo_two_calls 1 (demo_result 1 10)
              (demo_result 1 11) call s1 demo_two_calls_ok)
    as (s2 & Hrun2 & _ & _ & Hfut & _); try done.
  by exists s1, s2, call.
Defined.

(* ===================================================================== *)
(** ** Notifications, and the learned peer tag *)
(* ===================================================================== *)

(** The calls of the sink in a trace, in order, by their arguments. *)
Definition sink_calls (t : list event) : list (list value) :=
  omap (λ e, match e with OnNotification args => Some args | _ => None end) t.

(** A notification: a truthy [method] and no truthy [id]. *)
Definition is_notification (frame : list (list Z * value)) : Prop :=
  truthy (get frame (lit "method")) = true ∧
  truthy (get frame (lit "id")) = false.

Lemma sink_calls_route_warning frame r : sink_calls (route_warning frame r) = [].
Proof.
  unfold route_warning. destruct (route_dst r); [|done]. by destruct (_ && _).
Qed.

Lemma handle_notification frame s :
  is_notification frame →
  _handle_frame (PyDict frame) s =
    (Ok tt,
     with_trace (trace (routed frame s)
                   ++ [OnNotification [get frame (lit "method");
                                       get frame (lit "params")]])
       (routed frame s)).
Proof.
  intros [Hm Hid]. rewrite handle_frame_run. fold (routed frame s).
  unfold dispatch. by rewrite Hm, Hid.
Qed.

(** X13. Notifications reach the sink one by one in the order of arrival:
    delivering any list of notification frames to the receive loop calls
    the sink once for each, in that order, with the frame's [method] and
    its [params] ([None] when it has none), and leaves the registry and
    the futures alone. *)
Theorem notifications_in_order frames s :
  is_open s → Forall is_notification frames →
  ∃ s', rx_loop (deliver frames) s = (Ok false, s') ∧
    _calls s' = _calls s ∧ futures s' = futures s ∧
    sink_calls (trace s') =
      sink_calls (trace s)
        ++ ((λ frame, [get frame (lit "method"); get frame (lit "params")])
              <$> frames).
Proof.
  revert s. induction frames as [|frame frames IH]; intros s Hopen Hall.
  { exists s. split; [by apply rx_loop_done|]. by rewrite app_nil_r. }
  apply Forall_cons in Hall as [Hn Hall].
  pose proof (handle_notification frame s Hn) as Hrun.
  set (s1 := with_trace _ (routed frame s)) in Hrun.
  assert (Hopen1 : is_open s1) by exact Hopen.
  destruct (IH s1 Hopen1 Hall) as (s' & Hloop & Hcalls & Hfut & Hsink).
  exists s'. split.
  { change (deliver (frame :: frames))
      with ((TEXT (Some (PyDict frame)), false) :: deliver frames).
    rewrite rx_loop_frame by done.
    by erewrite bind_run by exact Hrun. }
  split; [by rewrite Hcalls|]. split; [by rewrite Hfut|].
  rewrite Hsink. subst s1. unfold routed. state_simpl.
  unfold sink_calls. rewrite !omap_app. fold sink_calls.
  rewrite sink_calls_route_warning. cbn. by rewrite app_nil_r, <- app_assoc.
Qed.

Lemma notifications_in_order_witness :
  ∃ s',
    rx_loop (deliver [demo_notify "X"; demo_notify "Y"]) demo_two_calls
      = (Ok false, s') ∧
    _calls s' = _calls demo_two_calls ∧ futures s' = futures demo_two_calls ∧
    sink_calls (trace s') =
      [[PyStr (lit "NotifyStatus"); PyNone]; [PyStr (lit "NotifyStatus"); PyNone]].
Proof.
  destruct (notifications_in_order [demo_notify "X"; demo_notify "Y"]
              demo_two_calls)
    as (s' & Hloop & Hcalls & Hfut & Hsink).
  - eexists. split; vm_compute; reflexivity.
  - repeat constructor.
  - exists s'. split; [exact Hloop|]. split; [exact Hcalls|].
    split; [exact Hfut|]. rewrite Hsink. vm_compute. reflexivity.
Defined.

(** The frame that [call] hands to the transport, by its parts. *)
Lemma call_issue_sends method_ params_ s c :
  _client s = Some c →
  ∃ a ps,
    trace (call_issue method_ params_ s).2 =
      trace s ++
      [SendJson
         (PyDict
            ([(lit "id", PyInt (_call_id s + 1));
              (lit "method", PyStr method_);
              (lit "src", PyStr (route_src (_route s)))]
             ++ (if truthy a then [(lit "auth", a)] else [])
             ++ match ps with
                | Some d => [(lit "params", PyDict d)]
                | None => []
                end
             ++ match route_dst (_route s) with
                | Some d => [(lit "dst", d)]
                | None => []
                end))].
Proof.
  intros Hc.
  pose proof (call_issue_run method_ params_ s c Hc) as Hrun.
  cbv zeta in Hrun. destruct (params_built s params_) as [p ds].
  destruct Hrun as (frame & Hframe & ->).
  rewrite request_frame_explicit in Hframe. injection Hframe as <-.
  cbn [snd trace with_trace call_id method params call_src call_dst auth].
  eexists _, (match p with Some q => Some _ | None => None end).
  do 4 f_equal. by destruct p.
Qed.

Lemma dict_get_dst (a : value) (ps : option (list (list Z * value)))
    (dst : option value) i m src :
  dict_get
    ([(lit "id", i); (lit "method", m); (lit "src", src)]
     ++ (if truthy a then [(lit "auth", a)] else [])
     ++ match ps with Some d => [(lit "params", PyDict d)] | None => [] end
     ++ match dst with Some d => [(lit "dst", d)] | None => [] end)
    (lit "dst") = dst.
Proof. by destruct (truthy a), ps, dst. Qed.

(** X14. The peer tag learned from inbound frames stamps the calls made
    afterwards: once a frame with a truthy [src] has been handled, the
    frame of the next [call] carries that value as [dst]; as long as no
    tag is recorded the frame of a call has no [dst]. *)
Theorem learned_tag_stamps_calls frame method_ params_ s c :
  _client s = Some c →
  (route_dst (_route s) = None →
   ∃ sent, trace (call_issue method_ params_ s).2
             = trace s ++ [SendJson (PyDict sent)] ∧
           dict_get sent (lit "dst") = None) ∧
  (truthy (get frame (lit "src")) = true →
   let s1 := (_handle_frame (PyDict frame) s).2 in
   ∃ sent, trace (call_issue method_ params_ s1).2
             = trace s1 ++ [SendJson (PyDict sent)] ∧
           dict_get sent (lit "dst") = Some (get frame (lit "src"))).
Proof.
  intros Hc. split.
  - intros Hdst. destruct (call_issue_sends method_ params_ s c Hc) as (a & ps & ->).
    eexists. split; [reflexivity|]. by rewrite dict_get_dst.
  - intros Hsrc. cbv zeta.
    destruct (handle_frame_shape (PyDict frame) s) as [(_ & Hc1 & _) Hd].
    destruct (Hd frame eq_refl) as [Hroute _].
    rewrite Hc in Hc1.
    destruct (call_issue_sends method_ params_ _ c Hc1) as (a & ps & ->).
    eexists. split; [reflexivity|]. rewrite dict_get_dst, Hroute.
    unfold route_after. by rewrite Hsrc.
Qed.

Lemma learned_tag_stamps_calls_witness :
  let s1 := (_handle_frame (PyDict (demo_notify "shelly")) demo_open).2 in
  ∃ sent, trace (call_issue (lit "Sys.GetStatus") None s1).2
            = trace s1 ++ [SendJson (PyDict sent)] ∧
          dict_get sent (lit "dst") = Some (PyStr (lit "shelly")).
Proof.
  exact (proj2 (learned_tag_stamps_calls (demo_notify "shelly")
                  (lit "Sys.GetStatus") None demo_open
                  (mkClient false None) eq_refl) eq_refl).
Defined.

(* ===================================================================== *)
(** ** [hex_hash] and the credentials, at their edges *)
(* ===================================================================== *)

(** A code point that UTF-8 can encode: in range and no surrogate. *)
Definition encodable (c : Z) : Prop :=
  0 ≤ c < 55296 ∨ 57343 < c < 1114112.

Lemma encode_char_encodable c :
  (encodable c → is_Some (Utf8.encode_char c)) ∧
  (¬ encodable c → Utf8.encode_char c = None).
Proof.
  unfold encodable, Utf8.encode_char.
  destruct (Z.ltb_spec c 0); [split; [lia|done]|].
  destruct (Z.ltb_spec c 128); [split; [by eexists|lia]|].
  destruct (Z.ltb_spec c 2048); [split; [by eexists|lia]|].
  destruct (Z.ltb_spec c 65536).
  - destruct (Z.leb_spec 55296 c), (Z.leb_spec c 57343); cbn [andb];
      split; first [lia | done | by eexists].
  - destruct (Z.ltb_spec c 1114112); split; first [lia | done | by eexists].
Qed.

Lemma encode_encodable s :
  (Forall encodable s → is_Some (Utf8.encode s)) ∧
  (¬ Forall encodable s → Utf8.encode s = None).
Proof.
  induction s as [|c s [IHy IHn]]; simpl.
  - split; [by eexists|]. intros H. exfalso. apply H. constructor.
  - destruct (encode_char_encodable c) as [Hy Hn]. split.
    + intros [Hc Hs]%Forall_cons. destruct (Hy Hc) as [b ->].
      destruct (IHy Hs) as [bs ->]. by eexists.
    + intros Hnot. destruct (Utf8.encode_char c) as [b|] eqn:Hb; [|done].
      destruct (Utf8.encode s) as [bs|] eqn:Hbs; [|done].
      exfalso. apply Hnot. constructor.
      * destruct (decide (encodable c)) as [|Hc]; [done|].
        apply Hn in Hc. discriminate Hc.
      * destruct (decide (Forall encodable s)) as [|Hs]; [done|].
        apply IHn in Hs. discriminate Hs.
Qed.

(** X15. [hex_hash] returns 64 lowercase hexadecimal digits for every
    message of encodable code points, and raises [UnicodeEncodeError] for
    every other message, that is as soon as the text holds a lone
    surrogate (which JSON text can carry). It raises nothing else. *)
Theorem hex_hash_total message :
  (Forall encodable message →
   ∃ digest, hex_hash message = Ok digest ∧ sha256_hex digest) ∧
  (¬ Forall encodable message →
   hex_hash message = Raise UnicodeEncodeError).
Proof.
  destruct (encode_encodable message) as [Hy Hn]. unfold hex_hash. split.
  - intros H. destruct (Hy H) as [bytes ->]. eexists. split; [done|].
    apply hexdigest_lower.
  - intros H. by rewrite (Hn H).
Qed.

Lemma hex_hash_total_witness :
  (∃ digest, hex_hash (lit "admin:r:s") = Ok digest ∧ sha256_hex digest) ∧
  hex_hash [110; 56832] = Raise UnicodeEncodeError.
Proof.
  split.
  - apply (proj1 (hex_hash_total (lit "admin:r:s"))).
    apply (bool_decide_unpack _). vm_compute. reflexivity.
  - apply (proj2 (hex_hash_total [110; 56832])).
    intros H. apply Forall_cons in H as [_ H].
    apply Forall_cons in H as [[H|H] _]; lia.
Defined.

Ltac result_steps :=
  repeat (lazymatch goal with
          | |- Raise _ = Ok _ → _ => intros [=]
          | |- mbind _ (Raise _) = _ → _ => cbn [mbind result_bind]; intros [=]
          | |- mbind _ (Ok _) = _ → _ => cbn [mbind result_bind]
          | |- mbind _ ?r = _ → _ =>
              destruct r; cbn [mbind result_bind]; [|intros [=]]
          end).

(** X16. What [connect] makes of a challenge it cannot use. A challenge
    that is not a mapping raises [TypeError], one without [realm] raises
    [KeyError], and one with a [realm] but without [nonce] raises [KeyError]
    once [ha1] is computed; whenever credentials do come out, the challenge
    was a mapping with [realm] and [nonce], the credentials are a non-empty
    mapping that echoes both, and they carry no [nc]. *)
Theorem connect_auth_edges repr password challenge cnonce :
  match challenge with
  | PyDict d =>
      (dict_get d (lit "realm") = None →
       connect_auth repr password challenge cnonce = Raise KeyError) ∧
      (∀ realm,
         dict_get d (lit "realm") = Some realm →
         dict_get d (lit "nonce") = None →
         Forall encodable (format repr realm) → Forall encodable password →
         connect_auth repr password challenge cnonce = Raise KeyError) ∧
      (∀ auth,
         connect_auth repr password challenge cnonce = Ok auth →
         ∃ realm nonce response,
           dict_get d (lit "realm") = Some realm ∧
           dict_get d (lit "nonce") = Some nonce ∧
           auth = PyDict [(lit "realm", realm);
                          (lit "username", PyStr (lit "admin"));
                          (lit "nonce", nonce);
                          (lit "cnonce", PyInt cnonce);
                          (lit "response", PyStr response);
                          (lit "algorithm", PyStr (lit "SHA-256"))] ∧
           truthy auth = true ∧
           subscript auth (lit "nc") = Raise KeyError)
  | _ => connect_auth repr password challenge cnonce = Raise TypeError
  end.
Proof.
  destruct challenge as [| | | | |d]; try reflexivity.
  set (d' := if dict_in d (lit "nc") then d
             else dict_set d (lit "nc") (PyInt 1)).
  assert (Hif : (if dict_in d (lit "nc") then PyDict d
                 else PyDict (dict_set d (lit "nc") (PyInt 1))) = PyDict d').
  { subst d'. by destruct (dict_in d (lit "nc")). }
  assert (Hd' : dict_get d' (lit "realm") = dict_get d (lit "realm") ∧
                dict_get d' (lit "nonce") = dict_get d (lit "nonce")).
  { subst d'. destruct (dict_in d (lit "nc")); [done|].
    rewrite (dict_get_set_ne d (lit "nc") (lit "realm"))
      by (intros Hk; discriminate Hk).
    by rewrite (dict_get_set_ne d (lit "nc") (lit "nonce"))
      by (intros Hk; discriminate Hk). }
  destruct Hd' as [Hrealm' Hnonce']. clearbody d'.
  unfold connect_auth, subscript. rewrite Hif.
  split; [|split].
  - by intros ->.
  - intros realm Hrealm Hnonce Her Hep. rewrite Hrealm. cbn [mbind result_bind].
    assert (Henc : Forall encodable
              (lit "admin" ++ lit ":" ++ format repr realm ++ lit ":" ++ password)).
    { repeat (apply Forall_app; split); try done;
        apply (bool_decide_unpack _); vm_compute; reflexivity. }
    destruct (proj1 (encode_encodable _) Henc) as [bytes Hbytes].
    rewrite (hex_hash_encoded _ _ Hbytes). cbn [mbind result_bind].
    rewrite (hex_hash_encoded (lit "dummy_method:dummy_uri")
               (lit "dummy_method:dummy_uri") eq_refl).
    cbn [mbind result_bind]. by rewrite Hnonce', Hnonce.
  - intros auth. rewrite Hnonce', Hrealm'.
    destruct (dict_get d (lit "realm")) as [realm|];
      cbn [mbind result_bind]; [|intros [=]].
    destruct (dict_get d (lit "nonce")) as [nonce|].
    2: { result_steps. }
    destruct (dict_get d' (lit "nc")) as [nc|].
    2: { result_steps. }
    result_steps.
    cbn [mret result_ret]. intros [= <-].
    eexists realm, nonce, _.
    split; [reflexivity|]. split; [reflexivity|]. split; [reflexivity|].
    split; reflexivity.
Qed.

Lemma connect_auth_edges_witness :
  connect_auth (λ _, []) (lit "s")
    (PyDict [(lit "realm", PyStr (lit "r"))]) 42 = Raise KeyError ∧
  connect_auth (λ _, []) (lit "s") (PyStr (lit "r")) 42 = Raise TypeError.
Proof.
  split.
  - apply (proj1 (proj2 (connect_auth_edges (λ _, []) (lit "s")
                           (PyDict [(lit "realm", PyStr (lit "r"))]) 42))
             (PyStr (lit "r")) eq_refl eq_refl);
      apply (bool_decide_unpack _); vm_compute; reflexivity.
  - exact (connect_auth_edges (λ _, []) (lit "s") (PyStr (lit "r")) 42).
Defined.

(* ===================================================================== *)
(** ** [connect] *)
(* ===================================================================== *)

(** [WsRPC.connect], lines 110-124, for the websocket [ws] that
    [ws_connect] returned (when [ws_connect] raises, [connect] raises
    [CannotConnect] and has changed nothing). Starting the receive task is
    the caller's next step; the task handle is not part of the state. *)
Definition connect_open (ws : ClientWebSocketResponse) : M unit :=
  is_connected ← gets connected;
  if negb is_connected then modify (with_client (Some ws))
  else raise (RuntimeError "Already connected").

Section Connect.

(** [str()] of a container and [json.loads] are taken as given. *)
Variable repr : value → list Z.
Variable json_loads : value → result value.

(** [WsRPC.connect], lines 129-158, once [options.password] is truthy:
    what is made of the outcome [first] of the first status call. Modelled
    from the spec: a [JSONRPCError] carries the [code] and [message] of
    the response. [true]: credentials were installed and the status call
    is made again. *)
Definition connect_challenge (password : list Z) (first : result value)
    (cnonce : Z) : M bool :=
  match first with
  | Ok _ => mret false
  | Raise (JSONRPCError code message) =>
      if negb (py_eq code (PyInt 401)) then raise (JSONRPCError code message)
      else
        response_message ← lift (json_loads message);
        auth ← lift (connect_auth repr password response_message cnonce);
        set_auth auth;;
        mret true
  | Raise e => raise e
  end.

(** Credentials, when they come out, are a non-empty mapping. *)
Lemma connect_auth_truthy password challenge cnonce auth :
  connect_auth repr password challenge cnonce = Ok auth → truthy auth = true.
Proof.
  unfold connect_auth.
  result_steps. cbn [mret result_ret]. by intros [= <-].
Qed.

(** The frame of an issued call, in full. *)
Lemma call_issue_frame method_ params_ s c :
  _client s = Some c →
  trace (call_issue method_ params_ s).2 =
    trace s ++ [SendJson (frame_sent s method_ params_)].
Proof.
  intros Hc.
  pose proof (call_issue_run method_ params_ s c Hc) as Hrun.
  pose proof (call_built s params_) as Hbuilt.
  cbv zeta in Hrun.
  destruct (params_built s params_) as [p ds]. cbv zeta in Hbuilt.
  destruct Hbuilt as [Hauth Hparams].
  destruct Hrun as (frame & Hframe & ->).
  rewrite request_frame_explicit in Hframe.
  injection Hframe as <-.
  change (auth_taken (with_call_id (_call_id s + 1) (with_dicts ds s)) p)
    with (auth_taken (with_dicts ds s) p).
  change (dicts_taken (with_call_id (_call_id s + 1) (with_dicts ds s)) p)
    with (dicts_taken (with_dicts ds s) p).
  cbn [snd trace with_trace call_id method params call_src call_dst auth
       dicts with_calls with_dicts].
  unfold frame_sent. rewrite Hauth, <- Hparams.
  by destruct p.
Qed.

(** X17. The handshake, step by step. If the first status call succeeds,
    or fails with anything but a [JSONRPCError] whose code equals 401, the
    credentials stay as they were and the error, if any, is passed on
    unchanged. On a 401 whose message decodes to a usable challenge the
    computed credentials are installed, and the status call made next
    carries exactly them as [auth], with an empty [params]. On a 401 whose
    challenge cannot be used the exception of the decoding or of the
    computation escapes and no credentials are installed. *)
Theorem connect_handshake password first cnonce s :
  match first with
  | Ok _ => connect_challenge password first cnonce s = (Ok false, s)
  | Raise (JSONRPCError code message) =>
      if py_eq code (PyInt 401) then
        match json_loads message
              ≫= (λ ch, connect_auth repr password ch cnonce) with
        | Ok auth =>
            connect_challenge password first cnonce s
              = (Ok true, with_auth auth s) ∧
            ∀ c, _client s = Some c →
              ∃ sent,
                trace (call_issue (lit "Sys.GetStatus") None
                         (with_auth auth s)).2
                  = trace s ++ [SendJson (PyDict sent)] ∧
                dict_get sent (lit "auth") = Some auth ∧
                dict_get sent (lit "params") = Some (PyDict [])
        | Raise e => connect_challenge password first cnonce s = (Raise e, s)
        end
      else connect_challenge password first cnonce s
             = (Raise (JSONRPCError code message), s)
  | Raise e => connect_challenge password first cnonce s = (Raise e, s)
  end.
Proof.
  destruct first as [r|e]; [done|].
  destruct e; try done.
  unfold connect_challenge. destruct (py_eq code (PyInt 401)); [|done].
  cbn [negb]. unfold lift, set_auth. unfold_M.
  destruct (json_loads msg) as [ch|e]; [|done].
  destruct (connect_auth repr password ch cnonce) as [auth|e] eqn:Hauth;
    [|done].
  split; [done|]. intros c Hc.
  assert (Htruthy : truthy auth = true)
    by exact (connect_auth_truthy password ch cnonce auth Hauth).
  rewrite (call_issue_frame (lit "Sys.GetStatus") None (with_auth auth s) c Hc).
  eexists. split; [reflexivity|].
  unfold auth_sent, params_sent, caller_dict. state_simpl.
  cbn [dict_get]. repeat rewrite Htruthy.
  destruct (route_dst (_route s)); split; reflexivity.
Qed.

End Connect.

(* ===================================================================== *)
(** ** What survives a connection, and the invariant of the registry *)
(* ===================================================================== *)




(** What can happen to an engine, one step at a time. *)
Inductive operation :=
| DoConnect (ws : ClientWebSocketResponse)
| DoSetAuth (auth : value)
| DoCall (method : list Z) (params : option nat)
| DoHandleFrame (frame : value)
| DoHandleCall (frame_id : value)
| DoRxMsgs (incoming : list (WSMessage * bool))
| DoDisconnect
| DoCancelWait (call : RPCCall)
| DoRxLoop (incoming : list (WSMessage * bool))
| DoTeardownBegin
| DoTeardownEnd.

(** The state an operation leaves, whether it returned or raised.
    [DoConnect] installs the websocket (the status calls of the handshake
    are calls), [DoCall] is [call] up to its [await], and [DoCancelWait]
    is a caller giving up its wait, on a timeout or a cancellation, which
    cancels the future it awaits. [DoRxMsgs] is [_rx_msgs] run with no
    other task in between; [DoRxLoop], [DoTeardownBegin] and
    [DoTeardownEnd] are its parts between the awaits, so that sequences
    also cover what other tasks do while it is suspended in [receive()]
    or in [close()]. *)
Definition perform (s : WsRPC) (o : operation) : WsRPC :=
  match o with
  | DoConnect ws => (connect_open ws s).2
  | DoSetAuth auth => (set_auth auth s).2
  | DoCall method params => (call_issue method params s).2
  | DoHandleFrame frame => (_handle_frame frame s).2
  | DoHandleCall frame_id => (_handle_call frame_id s).2
  | DoRxMsgs incoming => (_rx_msgs incoming s).2
  | DoDisconnect => (disconnect s).2
  | DoCancelWait call => (Future_cancel (resolve call) s).2
  | DoRxLoop incoming => (rx_loop incoming s).2
  | DoTeardownBegin => (teardown_begin s).2
  | DoTeardownEnd => (teardown_end s).2
  end.

Lemma registry_ok_same s s' :
  _calls s' = _calls s → _call_id s' = _call_id s → futures s' = futures s →
  registry_ok s → registry_ok s'.
Proof. intros Hc Hi Hf [? ? ? ?]. split; rewrite ?Hc, ?Hi, ?Hf; auto. Qed.

Lemma registry_ok_emptied s s' :
  _calls s' = ∅ → _call_id s' = _call_id s → registry_ok s → registry_ok s'.
Proof.
  intros Hc Hi [? _ _ _]. split; rewrite ?Hc, ?Hi; [done|..];
    intros *; rewrite lookup_empty; done.
Qed.

Lemma teardown_ok s : registry_ok s → registry_ok (teardown s).2.
Proof.
  intros Hok. destruct (_client s) as [c|] eqn:Hc.
  - rewrite (teardown_run s c Hc).
    apply (registry_ok_emptied s); [reflexivity|reflexivity|exact Hok].
  - rewrite (teardown_no_client s Hc).
    apply (registry_ok_emptied s); [reflexivity|reflexivity|exact Hok].
Qed.

Lemma Future_cancel_ok l s : registry_ok s → registry_ok (Future_cancel l s).2.
Proof.
  intros [Hc Hid Hfut Hd]. rewrite Future_cancel_run.
  split; cbn [snd]; state_simpl; auto.
  intros n c Hn. rewrite !cancel_one_lookup.
  destruct (Hfut n c Hn) as [H|H]; destruct (decide (l = resolve c)) as [->|];
    rewrite ?H; auto.
Qed.

Lemma teardown_begin_ok s : registry_ok s → registry_ok (teardown_begin s).2.
Proof.
  intros Hok. destruct (_client s) as [c|] eqn:Hc.
  - rewrite (teardown_begin_run s c Hc).
    apply (registry_ok_emptied s); [reflexivity|reflexivity|exact Hok].
  - pose proof (teardown_no_client s Hc) as Hrun. unfold teardown in Hrun.
    unfold mbind, M_bind in Hrun.
    destruct (teardown_begin s) as [[b|e] s1]; cbn [snd].
    + exfalso. revert Hrun. unfold teardown_end. unfold_M. intros [=].
    + injection Hrun as _ ->.
      apply (registry_ok_emptied s); [reflexivity|reflexivity|exact Hok].
Qed.

Lemma perform_ok s o : registry_ok s → registry_ok (perform s o).
Proof.
  intros Hok.
  destruct o as [ws|auth|method_ params_|frame|fid|incoming| |call|incoming| |];
    cbn [perform];
    [..|by apply Future_cancel_ok|by apply rx_loop_ok
       |by apply teardown_begin_ok
       |apply (registry_ok_same s); [reflexivity..|exact Hok]].
  - unfold connect_open. unfold_M. destruct (negb (connected s)); [|done].
    by apply registry_ok_with_client.
  - apply (registry_ok_same s); [reflexivity..|exact Hok].
  - by apply call_issue_ok.
  - by apply handle_frame_ok.
  - unfold _handle_call, _send_json. unfold_M.
    destruct (_client s) as [c|] eqn:Hc; [|done]. state_simpl.
    rewrite ?Hc.
    destruct (send_error c);
      (apply (registry_ok_same s); [reflexivity..|exact Hok]).
  - unfold _rx_msgs. unfold_M. destruct (_client s) as [c|]; [|done].
    pose proof (rx_loop_ok incoming s Hok) as Hok1.
    destruct (rx_loop incoming s) as [[[|]|e] s1]; try done.
    simpl in Hok1. pose proof (teardown_ok s1 Hok1) as Hok2.
    by destruct (teardown s1) as [[[]|e] s2].
  - unfold disconnect, transport_sets_closed. unfold_M.
    destruct (_client s) as [c|]; [|done].
    apply (registry_ok_same s); [reflexivity..|exact Hok].
Qed.

(** X19. The invariant of the registry holds in every state the engine
    can reach: from a new engine, after any sequence of [connect],
    [set_auth], [call], [_handle_frame], [_handle_call], [_rx_msgs] (whole,
    or part by part with other operations while it is suspended in
    [receive()] or in [close()]), [disconnect] and callers giving up
    their wait, whether the operations return or raise, every registered
    call is filed under its own id, ids are positive and at most the
    counter, no registered call's future holds a result, and no two
    registered calls share a future. *)
Theorem registry_invariant tag (ops : list operation) :
  registry_ok (foldl perform (WsRPC_init tag) ops).
Proof.
  generalize (registry_ok_init tag). generalize (WsRPC_init tag).
  induction ops as [|o ops IH]; intros s Hok; [done|].
  cbn [foldl]. apply IH. by apply perform_ok.
Qed.

(* ===================================================================== *)
(** ** While the teardown awaits [close()] *)
(* ===================================================================== *)

(** X21. A call made while the teardown is suspended in [close()] is
    accepted and then left behind. The futures were cancelled and the
    registry cleared before [close()] was awaited, and the handle is reset
    only after it: in between [connected] is false, yet [call] finds the
    handle set, takes the next id, registers the call and hands the frame
    to the closing transport. When the teardown goes on it resets the
    handle and tells the sink, and does not look at the registry again:
    the call is its only entry, its future is pending and its caller stays
    suspended. *)
Theorem call_during_close method_ params_ s c :
  registry_ok s → _client s = Some c → closed c = false →
  ∃ s1 call s2,
    teardown_begin s = (Ok true, s1) ∧ connected s1 = false ∧
    (call_issue method_ params_ s1).2 = s2 ∧
    (call_issue method_ params_ s1).1 =
      match send_error c with Some e => Raise e | None => Ok call end ∧
    call_id call = _call_id s + 1 ∧
    ∃ s3,
      teardown_end s2 = (Ok tt, s3) ∧
      _client s3 = None ∧
      _calls s3 = {[ _call_id s + 1 := call ]} ∧
      futures s3 !! resolve call = Some Pending ∧
      call_await call s3 = (Ok None, s3) ∧
      trace s3 = trace s2 ++ [OnNotification [NOTIFY_WS_CLOSED]].
Proof.
  intros Hok Hc Hopen.
  pose proof (teardown_begin_run s c Hc) as Hbegin.
  rewrite Hopen in Hbegin. cbn [negb] in Hbegin.
  match type of Hbegin with _ = (_, ?st) => set (s1 := st) in * end.
  assert (Hc1 : _client s1 = Some (mkClient true (send_error c)))
    by reflexivity.
  pose proof (call_issue_run method_ params_ s1 _ Hc1) as Hrun.
  cbv zeta in Hrun.
  destruct (params_built s1 params_) as [p ds].
  destruct Hrun as (frame & _ & Hrun). cbn [send_error] in Hrun.
  eexists s1, _, _. rewrite Hrun. cbn [fst snd].
  split; [exact Hbegin|]. split; [reflexivity|]. split; [reflexivity|].
  split; [reflexivity|]. split; [reflexivity|].
  eexists. split; [reflexivity|]. state_simpl.
  split; [done|]. split; [apply insert_empty|].
  split; [apply lookup_insert_eq|]. split; [|done].
  unfold call_await. unfold_M. state_simpl. by rewrite lookup_insert_eq.
Qed.

(** The transport accepts the frame of call 3 while the teardown of
    [demo_two_calls] is closing it. *)
Lemma call_during_close_witness :
  let s1 := (teardown_begin demo_two_calls).2 in
  let s2 := (call_issue (lit "C") None s1).2 in
  let s3 := (teardown_end s2).2 in
  (teardown_begin demo_two_calls).1 = Ok true ∧
  is_Some (_calls s3 !! 3) ∧ size (_calls s3) = 1%nat ∧ _client s3 = None.
Proof.
  cbv zeta.
  assert (Hc : _client demo_two_calls = Some (mkClient false None))
    by (vm_compute; reflexivity).
  destruct (call_during_close (lit "C") None demo_two_calls _
              demo_two_calls_ok Hc eq_refl)
    as (s1 & call & s2 & Hbegin & _ & Hs2 & _ & _ & s3 & Hend & Hcl & Hcalls & _).
  rewrite Hbegin. cbn [fst snd]. rewrite Hs2, Hend. cbn [snd].
  rewrite Hcalls, Hcl.
  split; [done|]. split; [|split; [|done]].
  - change (_call_id demo_two_calls + 1) with 3.
    rewrite lookup_singleton_eq. by eexists.
  - apply map_size_singleton.
Defined.
